(** * Three-player Kuhn poker: the hand dealer, the agent validator and the match loop

    A shallow embedding of [kuhn3p/dealer.py], [kuhn3p/validator.py] and
    [Match.play] of [kuhn3p/tournament.py].  Python objects that can raise are
    modelled with an explicit error type; the calls a hand makes into agent code
    are recorded in a trace, so that what an agent is told can be stated. *)

From Stdlib Require Import String.
From Stdlib Require Import List ZArith Lia Bool Arith.
From Stdlib Require Import Permutation Sorted.
Import ListNotations.
Local Open Scope Z_scope.

(** ** Python values, exceptions and results *)

(** The exception classes that matter for the [except] clauses of the sources.
    [SystemExit] and [KeyboardInterrupt] derive from [BaseException] only; all
    the others are subclasses of [Exception]. *)
Inductive exn : Type :=
| ValueError
| RuntimeError
| TypeError
| AssertionError
| IndexError
| InvalidStateError
| IllegalActionError
| OtherException (name : string)
| SystemExit
| KeyboardInterrupt.

(** [isinstance(e, Exception)] *)
Definition isinstance_Exception (e : exn) : bool :=
  match e with
  | SystemExit | KeyboardInterrupt => false
  | _ => true
  end.

(** [isinstance(e, (ValueError, RuntimeError))]: the clause of the dealer's loop. *)
Definition isinstance_ValueError_RuntimeError (e : exn) : bool :=
  match e with
  | ValueError | RuntimeError => true
  | _ => false
  end.

(** What a call into agent code does: it returns a value or raises. *)
Inductive outcome (A : Type) : Type :=
| Returns (a : A)
| Raises (e : exn).
Arguments Returns {A} a.
Arguments Raises {A} e.

(** What a function of the package does; [OutOfFuel] is only produced by the
    bounded unrolling of a [while] loop. *)
Inductive result (A : Type) : Type :=
| Ok (a : A)
| Raise (e : exn)
| OutOfFuel.
Arguments Ok {A} a.
Arguments Raise {A} e.
Arguments OutOfFuel {A}.

(** The values an agent's [act] can hand back. *)
Inductive pyval : Type :=
| PyBool (b : bool)
| PyInt (z : Z)
| PyNone
| PyStr (s : string)
| PyObject (repr : string).

(** [isinstance(x, (int, bool))] *)
Definition isinstance_int_bool (x : pyval) : bool :=
  match x with
  | PyBool _ | PyInt _ => true
  | _ => false
  end.

(** [int(x)] on a value that passed [isinstance_int_bool]. *)
Definition int_of (x : pyval) : Z :=
  match x with
  | PyBool true => 1
  | PyBool false => 0
  | PyInt z => z
  | _ => 0
  end.

(** Three-element lists indexed by a seat ([players], [cards]). *)
Definition vec3 (A : Type) : Type := (A * A * A)%type.

Definition get3 {A : Type} (v : vec3 A) (i : nat) : A :=
  let '(a, b, c) := v in
  match i with
  | O => a
  | S O => b
  | _ => c
  end.

(** [range(3)] *)
Definition range3 : list nat := [0; 1; 2]%nat.

(** ** The betting automaton *)

Module betting.

(** Modelled from the spec: [kuhn3p/betting.py] is not among the sources; a
    seat is an identifier in 0, 1, 2. *)
Definition seat : Type := nat.

(** Modelled from the spec: the two actions, Passive (Check or Call) and
    Aggressive (Bet or Fold). *)
Inductive action : Type := Passive | Aggressive.

(** Modelled from the spec: the integer codes of the actions, as the
    validator's message gives them: 0 is check/call, 1 is bet/fold. *)
Definition CHECK : Z := 0.

(** Modelled from the spec: Call is the Passive action facing a bet. *)
Definition CALL : Z := 0.

(** Modelled from the spec: Bet is the Aggressive action when no bet is
    outstanding. *)
Definition BET : Z := 1.

(** Modelled from the spec: Fold is the Aggressive action facing a bet. *)
Definition FOLD : Z := 1.

(** Modelled from the spec: a BettingState is the ordered sequence of
    (seat, action) pairs played so far, oldest first. *)
Definition state : Type := list (seat * action).

(** Modelled from the spec: [root()] is the empty history. *)
Definition root : state := [].

(** Modelled from the spec: whether an action is the Aggressive one. *)
Definition is_aggressive (a : action) : bool :=
  match a with Aggressive => true | Passive => false end.

(** Modelled from the spec: only one bet can be outstanding, so the first
    Aggressive action of a history is the bet; this gives the seat that made
    it and the actions played after it. *)
Fixpoint from_bet (s : state) : option (seat * list (seat * action)) :=
  match s with
  | [] => None
  | (p, Aggressive) :: r => Some (p, r)
  | (_, Passive) :: r => from_bet r
  end.

(** Modelled from the spec: the seat whose bet is outstanding, if any. *)
Definition outstanding (s : state) : option seat :=
  match from_bet s with
  | Some (p, _) => Some p
  | None => None
  end.

(** Modelled from the spec: the responses (Call or Fold) given to the bet. *)
Definition responses (s : state) : list (seat * action) :=
  match from_bet s with
  | Some (_, r) => r
  | None => []
  end.

(** Modelled from the spec: the seat played one of the actions of [s]. *)
Definition acted (s : list (seat * action)) (p : seat) : bool :=
  existsb (fun e => Nat.eqb (fst e) p) s.

(** Modelled from the spec: a seat has folded when it answered the bet with
    the Aggressive action. *)
Definition folded (s : state) (p : seat) : bool :=
  existsb (fun e => Nat.eqb (fst e) p && is_aggressive (snd e)) (responses s).

(** Modelled from the spec: a seat has called when it answered the bet with
    the Passive action. *)
Definition called (s : state) (p : seat) : bool :=
  existsb (fun e => Nat.eqb (fst e) p && negb (is_aggressive (snd e)))
          (responses s).

(** Modelled from the spec: rules 2 to 5.  With no bet outstanding a seat owes
    an action until it has acted; once a bet is made every seat other than the
    bettor owes exactly one response to it. *)
Definition owes (s : state) (p : seat) : bool :=
  match outstanding s with
  | None => negb (acted s p)
  | Some b => negb (Nat.eqb p b) && negb (acted (responses s) p)
  end.

(** Modelled from the spec: rule 1, the rotation 0, 1, 2, 0, ... starting
    after the seat that acted last. *)
Definition rotation (s : state) : list seat :=
  let first := match last (map (fun e => Some (fst e)) s) None with
               | Some p => ((p + 1) mod 3)%nat
               | None => 0%nat
               end in
  [first; ((first + 1) mod 3)%nat; ((first + 2) mod 3)%nat].

(** Modelled from the spec: the first seat in rotation order that owes an
    action. *)
Definition next_to_act (s : state) : option seat :=
  find (owes s) (rotation s).

(** Modelled from the spec: a history is a state of the automaton when each
    of its actions was played by the seat whose turn it was. *)
Fixpoint replay (prefix rest : state) : bool :=
  match rest with
  | [] => true
  | (p, a) :: r =>
      match next_to_act prefix with
      | Some q => Nat.eqb p q && replay (prefix ++ [(p, a)]) r
      | None => false
      end
  end.

(** Modelled from the spec: the histories that legal play from the root can
    produce. *)
Definition well_formed (s : state) : bool := replay [] s.

(** Modelled from the spec: [isInternal], some seat still owes an action (the
    first of them in rotation order is the one to act). *)
Definition is_internal (s : state) : bool :=
  well_formed s && match next_to_act s with Some _ => true | None => false end.

(** Modelled from the spec: [isTerminal], no seat owes an action. *)
Definition is_terminal (s : state) : bool :=
  well_formed s && match next_to_act s with Some _ => false | None => true end.

(** Modelled from the spec: [actor], defined only for internal states. *)
Definition actor (s : state) : result seat :=
  if is_internal s then
    match next_to_act s with
    | Some p => Ok p
    | None => Raise InvalidStateError
    end
  else Raise InvalidStateError.

(** Modelled from the spec: [canBet], an internal state with no bet
    outstanding. *)
Definition can_bet (s : state) : bool :=
  is_internal s && match outstanding s with None => true | Some _ => false end.

(** Modelled from the spec: [facingBet], an internal state with a bet
    outstanding. *)
Definition facing_bet (s : state) : bool :=
  is_internal s && match outstanding s with None => false | Some _ => true end.

(** Modelled from the spec: [legalActionCount], 2 for every internal state;
    a terminal state has no legal action. *)
Definition num_actions (s : state) : Z :=
  if is_internal s then 2 else 0.

(** Modelled from the spec: [apply], total for an internal state and an
    action in 0, 1; an error for any other action or state. *)
Definition act (s : state) (a : Z) : result state :=
  match actor s with
  | Ok p =>
      if a =? 0 then Ok (s ++ [(p, Passive)])
      else if a =? 1 then Ok (s ++ [(p, Aggressive)])
      else Raise IllegalActionError
  | _ => Raise IllegalActionError
  end.

(** Modelled from the spec: [activeAt], the seat has not folded. *)
Definition at_showdown (s : state) (p : seat) : bool :=
  negb (folded s p).

(** Modelled from the spec: the seats still in the hand, in seat order. *)
Definition active_seats (s : state) : list seat :=
  filter (at_showdown s) range3.

(** Modelled from the spec: [isShowdown], terminal with at least two active
    seats. *)
Definition is_showdown (s : state) : bool :=
  is_terminal s && (2 <=? length (active_seats s))%nat.

(** Modelled from the spec: [soleSurvivor] (the dealer calls it [bettor]),
    defined only for a terminal state with exactly one active seat. *)
Definition bettor (s : state) : result seat :=
  if is_terminal s then
    match active_seats s with
    | [p] => Ok p
    | _ => Raise InvalidStateError
    end
  else Raise InvalidStateError.

(** Modelled from the spec: [contribution], the ante plus 1 if the seat ever
    played Bet or Call. *)
Definition pot_contribution (s : state) (p : seat) : Z :=
  1 + (if match outstanding s with
          | Some b => Nat.eqb p b
          | None => false
          end || called s p
       then 1 else 0).

(** Modelled from the spec: [potSize], the sum of the contributions. *)
Definition pot_size (s : state) : Z :=
  fold_right Z.add 0 (map (pot_contribution s) range3).

(** Modelled from the spec: [decisionDepth], the number of actions taken. *)
Definition decision_depth (s : state) : nat := length s.

(** Modelled from the spec: the children of a state, one per legal action. *)
Definition children (s : state) : list state :=
  flat_map (fun a => match act s a with Ok t => [t] | _ => [] end) [0; 1].

(** Modelled from the spec: breadth-first enumeration from a frontier, one
    action level per unit of [depth]. *)
Fixpoint bfs (depth : nat) (frontier : list state) : list state :=
  match depth with
  | O => frontier
  | S d => frontier ++ bfs d (flat_map children frontier)
  end.

(** Modelled from the spec: the enumeration from the root through five action
    levels. *)
Definition all_states : list state := bfs 5 [root].

(** Modelled from the spec: the states reachable from the root by legal
    actions. *)
Inductive reachable : state -> Prop :=
| reachable_root : reachable root
| reachable_act s a t :
    reachable s -> act s a = Ok t -> reachable t.

(** Equality tests on states, to check the enumeration by computation. *)
Definition action_eqb (a b : action) : bool :=
  match a, b with
  | Passive, Passive | Aggressive, Aggressive => true
  | _, _ => false
  end.

Fixpoint state_eqb (s t : state) : bool :=
  match s, t with
  | [], [] => true
  | (p, a) :: s', (q, b) :: t' =>
      Nat.eqb p q && action_eqb a b && state_eqb s' t'
  | _, _ => false
  end.

Definition mem (s : state) (l : list state) : bool := existsb (state_eqb s) l.

Fixpoint nodupb (l : list state) : bool :=
  match l with
  | [] => true
  | s :: r => negb (mem s r) && nodupb r
  end.

End betting.

(** ** Agents and the trace of a hand *)

Module Player.

(** The capability set of [kuhn3p.Player].  Within one hand every hook is
    called with arguments that differ from call to call (each [act] is at a
    longer history), so a function of the arguments describes what an agent
    object, however stateful, does during that hand.  The positions, cards and
    states a hook is given are immutable values.  The list of shown cards is a
    Python list, an object the caller keeps and that the hook can write to:
    [end_hand] gives the entries of that list as the hook leaves it (what it
    was given, for a hook that only reads it) and how the call ends.  The
    entries are ranks or [None], the kinds of value the dealer puts there. *)
Record t : Type := {
  start_hand : nat -> Z -> outcome unit;
  act : betting.state -> Z -> outcome pyval;
  end_hand : nat -> Z -> betting.state -> list (option Z)
             -> list (option Z) * outcome unit
}.

End Player.

(** The calls that reach agent code, with their arguments. *)
Inductive event : Type :=
| CallStartHand (position : nat) (card : Z)
| CallAct (state : betting.state) (card : Z)
| CallEndHand (position : nat) (card : Z) (state : betting.state)
              (shown_cards : list (option Z)).

(** A computation that may raise and that records the calls it makes. *)
Definition M (A : Type) : Type := (list event * result A)%type.

Definition ret {A : Type} (a : A) : M A := ([], Ok a).

Definition lift {A : Type} (r : result A) : M A := ([], r).

Definition bind {A B : Type} (m : M A) (f : A -> M B) : M B :=
  match m with
  | (tr, Ok a) => let '(tr', r) := f a in (tr ++ tr', r)
  | (tr, Raise e) => (tr, Raise e)
  | (tr, OutOfFuel) => (tr, OutOfFuel)
  end.

Notation "x <- c1 ;; c2" := (bind c1 (fun x => c2))
  (at level 61, c1 at next level, right associativity).

(** [for i in l: body(i)] *)
Fixpoint for_each (l : list nat) (body : nat -> M unit) : M unit :=
  match l with
  | [] => ret tt
  | i :: r => _ <- body i ;; for_each r body
  end.

(** [for i in l: body(i, obj)] where [obj] is one mutable object handed to
    every iteration: each iteration finds it as the one before left it. *)
Fixpoint for_each_sharing {O : Type} (l : list nat) (body : nat -> O -> M O)
         (obj : O) : M O :=
  match l with
  | [] => ret obj
  | i :: r => obj' <- body i obj ;; for_each_sharing r body obj'
  end.

(** ** [kuhn3p/validator.py] *)

Module validator.

(** [AgentValidator.__init__]: the wrapped agent and its name.  The
    [TypeError] branch is excluded by the type of [agent]; [_last_error] is
    only ever written, so it is left out. *)
Record AgentValidator : Type := {
  agent : Player.t;
  agent_name : string
}.

(** [AgentValidator.start_hand] *)
Definition start_hand (self : AgentValidator) (position : nat) (card : Z)
  : M unit :=
  ([CallStartHand position card],
   match Player.start_hand (agent self) position card with
   | Returns _ => Ok tt
   | Raises e => if isinstance_Exception e then Ok tt else Raise e
   end).

(** [AgentValidator.act] *)
Definition act (self : AgentValidator) (state : betting.state) (card : Z)
  : M Z :=
  if negb (betting.is_internal state) then lift (Raise ValueError)
  else if negb ((0 <=? card) && (card <? 4)) then lift (Raise ValueError)
  else
    ([CallAct state card],
     match Player.act (agent self) state card with
     | Raises e =>
         if isinstance_Exception e then Raise RuntimeError else Raise e
     | Returns action =>
         if negb (isinstance_int_bool action) then Raise ValueError
         else
           let action := int_of action in
           if negb ((action =? 0) || (action =? 1)) then Raise ValueError
           else if negb (betting.num_actions state =? 2) then Raise ValueError
           else Ok action
     end).

(** [AgentValidator.end_hand]: the method returns nothing; the value given
    here is the list [shown_cards] as the call leaves it. *)
Definition end_hand (self : AgentValidator) (position : nat) (card : Z)
           (state : betting.state) (shown_cards : list (option Z))
  : M (list (option Z)) :=
  let '(shown_cards', r) :=
    Player.end_hand (agent self) position card state shown_cards in
  ([CallEndHand position card state shown_cards],
   match r with
   | Returns _ => Ok shown_cards'
   | Raises e => if isinstance_Exception e then Ok shown_cards' else Raise e
   end).

End validator.

(** ** [kuhn3p/dealer.py] *)

Module dealer.

(** An element of the [players] argument: a bare [Player] or one that is
    already wrapped in an [AgentValidator]. *)
Inductive player : Type :=
| Unwrapped (p : Player.t)
| Wrapped (v : validator.AgentValidator).

Definition player_name (i : nat) : string :=
  match i with
  | O => "Player_0"
  | S O => "Player_1"
  | _ => "Player_2"
  end.

(** One element of the [validated_players] comprehension. *)
Definition validate (i : nat) (p : player) : validator.AgentValidator :=
  match p with
  | Unwrapped a => {| validator.agent := a;
                      validator.agent_name := player_name i |}
  | Wrapped v => v
  end.

Definition validated (players : vec3 player) : vec3 validator.AgentValidator :=
  let '(p0, p1, p2) := players in
  (validate 0 p0, validate 1 p1, validate 2 p2).

(** [p.end_hand(...)] on an element of [players]: the bare agent's own hook,
    or the validator's.  As for the validator, the value is the list
    [shown_cards] as the call leaves it. *)
Definition player_end_hand (p : player) (position : nat) (card : Z)
           (state : betting.state) (shown_cards : list (option Z))
  : M (list (option Z)) :=
  match p with
  | Unwrapped a =>
      let '(shown_cards', r) :=
        Player.end_hand a position card state shown_cards in
      ([CallEndHand position card state shown_cards],
       match r with
       | Returns _ => Ok shown_cards'
       | Raises e => Raise e
       end)
  | Wrapped v => validator.end_hand v position card state shown_cards
  end.

(** [winner(state, cards)] *)
Definition winner (state : betting.state) (cards : vec3 Z) : result Z :=
  if negb (betting.is_terminal state) then Raise AssertionError
  else if betting.is_showdown state then
    let '(best_player, best_card) :=
      fold_left
        (fun best i =>
           if betting.at_showdown state i && (get3 cards i >? snd best)
           then (Z.of_nat i, get3 cards i)
           else best)
        range3 (-1, -1) in
    Ok best_player
  else
    match betting.bettor state with
    | Ok p => Ok (Z.of_nat p)
    | Raise e => Raise e
    | OutOfFuel => OutOfFuel
    end.

(** The action substituted for a seat that forfeits. *)
Definition forced_action (state : betting.state) : Z :=
  if betting.can_bet state then betting.CHECK else betting.FOLD.

(** The [while not betting.is_terminal(state)] loop of [play_hand]. *)
Fixpoint action_loop (fuel : nat)
         (validated_players : vec3 validator.AgentValidator)
         (cards : vec3 Z) (state : betting.state) : M betting.state :=
  if betting.is_terminal state then ret state
  else
    match fuel with
    | O => lift OutOfFuel
    | S fuel' =>
        player <- lift (betting.actor state) ;;
        match validator.act (get3 validated_players player) state
                            (get3 cards player) with
        | (tr, Ok action) =>
            state' <- (tr, betting.act state action) ;;
            action_loop fuel' validated_players cards state'
        | (tr, Raise e) =>
            if isinstance_ValueError_RuntimeError e then
              state' <- (tr, betting.act state (forced_action state)) ;;
              ret state'
            else (tr, Raise e)
        | (tr, OutOfFuel) => (tr, OutOfFuel)
        end
    end.

(** The [shown_cards] comprehension. *)
Definition shown_cards (state : betting.state) (cards : vec3 Z)
  : list (option Z) :=
  map (fun i => if betting.at_showdown state i then Some (get3 cards i)
                else None) range3.

(** The comprehension of the [return] statement. *)
Definition deltas (state : betting.state) (the_winner : Z) (pot_size : Z)
  : list Z :=
  map (fun i => pot_size * (if Z.of_nat i =? the_winner then 1 else 0)
                - betting.pot_contribution state i) range3.

(** [play_hand(players, cards)].  The list [shown_cards] is built once and
    the three [end_hand] calls are handed that one object. *)
Definition play_hand (fuel : nat) (players : vec3 player) (cards : vec3 Z)
  : M (betting.state * list Z) :=
  let state := betting.root in
  let validated_players := validated players in
  _ <- for_each range3
         (fun i => validator.start_hand (get3 validated_players i) i
                                        (get3 cards i)) ;;
  state <- action_loop fuel validated_players cards state ;;
  let shown_cards := shown_cards state cards in
  _ <- for_each_sharing range3
         (fun i shown_cards =>
            player_end_hand (get3 players i) i (get3 cards i) state
                            shown_cards)
         shown_cards ;;
  the_winner <- lift (winner state cards) ;;
  let pot_size := betting.pot_size state in
  ret (state, deltas state the_winner pot_size).

End dealer.

(** ** [Match] of [kuhn3p/tournament.py] *)

Module tournament.

(** [l[i]] on a Python list, for a non-negative index. *)
Definition getitem (l : list Z) (i : nat) : result Z :=
  match nth_error l i with
  | Some x => Ok x
  | None => Raise IndexError
  end.

(** The list [l] after [l[i] = v]. *)
Fixpoint setitem (l : list Z) (i : nat) (v : Z) : result (list Z) :=
  match l, i with
  | [], _ => Raise IndexError
  | _ :: r, O => Ok (v :: r)
  | x :: r, S j =>
      match setitem r j v with
      | Ok r' => Ok (x :: r')
      | Raise e => Raise e
      | OutOfFuel => OutOfFuel
      end
  end.

Definition rbind {A B : Type} (r : result A) (f : A -> result B) : result B :=
  match r with
  | Ok a => f a
  | Raise e => Raise e
  | OutOfFuel => OutOfFuel
  end.

(** [scores[k] += d] *)
Definition add_at (scores : list Z) (k : nat) (d : Z) : result (list Z) :=
  rbind (getitem scores k) (fun old => setitem scores k (old + d)).

Section Match.

(** What the three objects of [self.players] do during hand [hand_num]
    (agents may keep state from one hand to the next), and the deal
    [deck.shuffled(self.rng)] hands out for it. *)
Variable players : nat -> vec3 dealer.player.
Variable shuffled : nat -> vec3 Z.
Variable fuel : nat.

(** The seating of hand [hand_num]. *)
Definition hand_players (button_rotation : bool) (hand_num : nat)
  : vec3 dealer.player :=
  if button_rotation then
    let first := (hand_num mod 3)%nat in
    let second := ((first + 1) mod 3)%nat in
    let third := ((second + 1) mod 3)%nat in
    (get3 (players hand_num) first, get3 (players hand_num) second,
     get3 (players hand_num) third)
  else players hand_num.

(** The two [for i in range(3)] loops that add a hand's deltas. *)
Fixpoint add_deltas (button_rotation : bool) (first : nat) (l : list nat)
         (delta : list Z) (scores : list Z) : result (list Z) :=
  match l with
  | [] => Ok scores
  | i :: r =>
      rbind (getitem delta i) (fun d =>
      rbind (add_at scores
                    (if button_rotation then ((first + i) mod 3)%nat else i)
                    d)
            (add_deltas button_rotation first r delta))
  end.

(** The body of [for hand_num in range(self.num_hands)], over the hands
    still to play. *)
Fixpoint play_hands (button_rotation : bool) (hands : list nat)
         (scores : list Z) : result (list Z) :=
  match hands with
  | [] => Ok scores
  | hand_num :: rest =>
      rbind (snd (dealer.play_hand fuel
                    (hand_players button_rotation hand_num)
                    (shuffled hand_num)))
            (fun '(state, delta) =>
               rbind (add_deltas button_rotation (hand_num mod 3)%nat
                                 range3 delta scores)
                     (play_hands button_rotation rest))
  end.

(** [Match.play] on a match whose [scores] are [scores]; the warning about
    the sum of the scores does not change what is returned. *)
Definition play (num_hands : nat) (scores : list Z) (button_rotation : bool)
  : result (list Z) :=
  play_hands button_rotation (seq 0 num_hands) scores.

End Match.

(** [self.scores] as [Match.__init__] sets it. *)
Definition initial_scores : list Z := [0; 0; 0].

End tournament.

(** ** Some agents, used to run the definitions *)

(** The example of [AGENT_TEMPLATE.py]: bet or call with the ace only. *)
Definition TemplateAgent : Player.t :=
  {| Player.start_hand := fun _ _ => Returns tt;
     Player.act := fun state card =>
       if betting.can_bet state
       then (if card =? 3 then Returns (PyInt betting.BET)
             else Returns (PyInt betting.CHECK))
       else (if card =? 3 then Returns (PyInt betting.CALL)
             else Returns (PyInt betting.FOLD));
     Player.end_hand := fun _ _ _ shown => (shown, Returns tt) |}.

(** An agent that always plays the given action. *)
Definition always (x : pyval) : Player.t :=
  {| Player.start_hand := fun _ _ => Returns tt;
     Player.act := fun _ _ => Returns x;
     Player.end_hand := fun _ _ _ shown => (shown, Returns tt) |}.

(** An agent whose [act] raises. *)
Definition crashing (e : exn) : Player.t :=
  {| Player.start_hand := fun _ _ => Returns tt;
     Player.act := fun _ _ => Raises e;
     Player.end_hand := fun _ _ _ shown => (shown, Returns tt) |}.

(** An agent that checks or calls and whose [end_hand] raises. *)
Definition sore_loser (e : exn) : Player.t :=
  {| Player.start_hand := fun _ _ => Returns tt;
     Player.act := fun _ _ => Returns (PyInt 0);
     Player.end_hand := fun _ _ _ shown => (shown, Raises e) |}.



(** A match of the three agents above that keep no state, with a deal that
    moves with the hand number. *)
Definition demo_players (hand_num : nat) : vec3 dealer.player :=
  (dealer.Unwrapped (always (PyInt 1)), dealer.Unwrapped TemplateAgent,
   dealer.Unwrapped (always (PyBool false))).

Definition demo_deal (hand_num : nat) : vec3 Z :=
  match (hand_num mod 2)%nat with
  | O => (0, 3, 2)
  | _ => (2, 1, 3)
  end.

Definition demo_outcome (hand_num : nat) : betting.state * list Z :=
  match snd (dealer.play_hand 5
               (tournament.hand_players demo_players true hand_num)
               (demo_deal hand_num)) with
  | Ok o => o
  | _ => ([], [])
  end.

(** A deal: three pairwise distinct ranks out of the four (0 to 3). *)
Definition valid_rank (c : Z) : Prop := 0 <= c < 4.

Definition valid_deal (cards : vec3 Z) : Prop :=
  let '(c0, c1, c2) := cards in
  valid_rank c0 /\ valid_rank c1 /\ valid_rank c2 /\
  c0 <> c1 /\ c0 <> c2 /\ c1 <> c2.

(** ** Predicates used in the statements *)

(** Seat [w] is active at [s] and holds a strictly higher rank than every other
    active seat. *)
Definition highest_active (s : betting.state) (cards : vec3 Z) (w : nat) : Prop :=
  betting.at_showdown s w = true /\
  forall j, (j < 3)%nat -> betting.at_showdown s j = true -> j <> w ->
            get3 cards j < get3 cards w.

(** Seat [w] is the only active seat at [s]. *)
Definition sole_survivor (s : betting.state) (w : nat) : Prop :=
  betting.at_showdown s w = true /\
  forall j, (j < 3)%nat -> betting.at_showdown s j = true -> j = w.





(** The seat player [p] of [self.players] sits at in hand [hand_num] when the
    button rotates. *)
Definition seat_of (p hand_num : nat) : nat := ((p + 3 - hand_num mod 3) mod 3)%nat.

(** [sum(l)] *)
Definition sum (l : list Z) : Z := fold_right Z.add 0 l.

(** ** Agents that keep to the calling contract *)






Definition is_start_event (e : event) : bool :=
  match e with CallStartHand _ _ => true | _ => false end.

Definition is_act_event (e : event) : bool :=
  match e with CallAct _ _ => true | _ => false end.

Definition is_end_event (e : event) : bool :=
  match e with CallEndHand _ _ _ _ => true | _ => false end.

(** The seat player [p] sits at in hand [hand_num], with or without button
    rotation. *)
Definition seat_in (button_rotation : bool) (p hand_num : nat) : nat :=
  if button_rotation then seat_of p hand_num else p.

(** The outcomes of the demonstration match when the seats are fixed. *)
Definition demo_outcome_fixed (hand_num : nat) : betting.state * list Z :=
  match snd (dealer.play_hand 5 (demo_players hand_num) (demo_deal hand_num)) with
  | Ok o => o
  | _ => ([], [])
  end.

(** ** [TournamentMatch.run] *)

(** [max(l)] on a list of integers; [ValueError] on the empty list. *)
Definition py_max (l : list Z) : result Z :=
  match l with
  | [] => Raise ValueError
  | x :: r => Ok (fold_left Z.max r x)
  end.

(** [l.index(v)]: the first position holding [v]; [ValueError] if there is
    none. *)
Fixpoint py_index (l : list Z) (v : Z) : result nat :=
  match l with
  | [] => Raise ValueError
  | x :: r =>
      if x =? v then Ok 0%nat
      else match py_index r v with
           | Ok i => Ok (S i)
           | Raise e => Raise e
           | OutOfFuel => OutOfFuel
           end
  end.

(** One step of [sorted(..., key=key, reverse=True)]: [x], which stood before
    the elements of [l], goes in front of the first element whose key is not
    greater than its own, so that equal keys keep their order. *)
Fixpoint insert_reverse {A : Type} (key : A -> Z) (x : A) (l : list A) : list A :=
  match l with
  | [] => [x]
  | y :: r => if key y >? key x then y :: insert_reverse key x r else x :: l
  end.

(** [sorted(l, key=key, reverse=True)]: descending by key, stable. *)
Definition sorted_reverse {A : Type} (key : A -> Z) (l : list A) : list A :=
  fold_right (insert_reverse key) [] l.

(** The type of results, under a name the keys of the dictionary below do not
    hide. *)
Definition fallible (A : Type) : Type := result A.

Module TournamentMatch.

(** The dictionary [run] returns. *)
Record match_result : Type := {
  scores : list Z;
  winner : nat;
  runner_up : nat;
  result : list Z;
  total_chips_wagered : Z
}.

(** What [run] computes from the scores of the match. *)
Definition summary (scores : list Z) : fallible match_result :=
  tournament.rbind (tournament.getitem scores 0) (fun s0 =>
  tournament.rbind (tournament.getitem scores 1) (fun s1 =>
  tournament.rbind (tournament.getitem scores 2) (fun s2 =>
  let total_bet := Z.abs s0 + Z.abs s1 + Z.abs s2 in
  tournament.rbind (py_max scores) (fun m =>
  tournament.rbind (py_index scores m) (fun w =>
  match nth_error (sorted_reverse (fun i => nth i scores 0) range3) 1 with
  | None => Raise IndexError
  | Some r =>
      Ok {| scores := scores;
            winner := w;
            runner_up := r;
            result := map (fun i => nth i scores 0) range3;
            total_chips_wagered := total_bet |}
  end))))).

(** [TournamentMatch.run(player1, player2, player3, hands, seed)]: a new match
    of [hands] hands, played with button rotation. *)
Definition run (players : nat -> vec3 dealer.player) (shuffled : nat -> vec3 Z)
           (fuel : nat) (hands : nat) : fallible match_result :=
  tournament.rbind
    (tournament.play players shuffled fuel hands tournament.initial_scores true)
    summary.

End TournamentMatch.

(** ** [Tournament] *)

(** [itertools.combinations(l, k)]: the sublists of [l] of length [k], in
    lexicographic order of positions. *)
Fixpoint combinations {A : Type} (l : list A) (k : nat) : list (list A) :=
  match k, l with
  | O, _ => [[]]
  | S _, [] => []
  | S k', x :: r => map (cons x) (combinations r k') ++ combinations r k
  end.

Module Tournament.

(** One value of [self.results]. *)
Record stats : Type := {
  name : string;
  total_score : Z;
  matches_played : Z;
  num_first_places : Z;
  num_second_places : Z;
  num_third_places : Z
}.

(** A key of [self.matchups]: the indices of the three agents of a matchup. *)
Definition key : Type := (nat * nat * nat)%type.

(** [self.matchups]: the scores of the matches of each matchup, the matchups in
    the order they were first played. *)
Definition matchups_dict : Type := list (key * list (list Z)).

Definition key_eqb (a b : key) : bool :=
  let '(a1, a2, a3) := a in
  let '(b1, b2, b3) := b in
  Nat.eqb a1 b1 && Nat.eqb a2 b2 && Nat.eqb a3 b3.

(** [list(combinations(range(n), 3))] *)
Definition matchup_keys (n : nat) : list key :=
  flat_map (fun c => match c with
                     | [i; j; k] => [(i, j, k)]
                     | _ => []
                     end)
           (combinations (seq 0 n) 3).

(** The two statements that file the scores of a match under its matchup. *)
Fixpoint dict_append (m : matchups_dict) (k : key) (scores : list Z)
  : matchups_dict :=
  match m with
  | [] => [(k, [scores])]
  | (k', matches) :: r =>
      if key_eqb k' k then (k', matches ++ [scores]) :: r
      else (k', matches) :: dict_append r k scores
  end.

(** [self.results[idx]]; a missing key is a [KeyError]. *)
Definition lookup (results : list stats) (idx : nat) : fallible stats :=
  match nth_error results idx with
  | Some r => Ok r
  | None => Raise (OtherException "KeyError")
  end.

(** [self.results] after the entry of [idx], which is there, has become [r]. *)
Fixpoint store (results : list stats) (idx : nat) (r : stats) : list stats :=
  match results, idx with
  | [], _ => []
  | _ :: rest, O => r :: rest
  | x :: rest, S i => x :: store rest i r
  end.

Definition add_score (d : Z) (r : stats) : stats :=
  {| name := name r; total_score := total_score r + d;
     matches_played := matches_played r;
     num_first_places := num_first_places r;
     num_second_places := num_second_places r;
     num_third_places := num_third_places r |}.

Definition add_match (r : stats) : stats :=
  {| name := name r; total_score := total_score r;
     matches_played := matches_played r + 1;
     num_first_places := num_first_places r;
     num_second_places := num_second_places r;
     num_third_places := num_third_places r |}.

(** The [if place == 0 ... elif place == 1 ... else ...] of the placement. *)
Definition add_place (place : nat) (r : stats) : stats :=
  match place with
  | O =>
      {| name := name r; total_score := total_score r;
         matches_played := matches_played r;
         num_first_places := num_first_places r + 1;
         num_second_places := num_second_places r;
         num_third_places := num_third_places r |}
  | S O =>
      {| name := name r; total_score := total_score r;
         matches_played := matches_played r;
         num_first_places := num_first_places r;
         num_second_places := num_second_places r + 1;
         num_third_places := num_third_places r |}
  | _ =>
      {| name := name r; total_score := total_score r;
         matches_played := matches_played r;
         num_first_places := num_first_places r;
         num_second_places := num_second_places r;
         num_third_places := num_third_places r + 1 |}
  end.

(** [[(scores[j], [idx1, idx2, idx3][j]) for j in range(3)]] *)
Definition score_pairs (scores : list Z) (idxs : list nat)
  : fallible (list (Z * nat)) :=
  match scores, idxs with
  | s0 :: s1 :: s2 :: _, i0 :: i1 :: i2 :: _ => Ok [(s0, i0); (s1, i1); (s2, i2)]
  | _, _ => Raise IndexError
  end.

(** The place at which the inner loop finds [idx] and breaks, if it does. *)
Fixpoint place_of (sorted_scores : list (Z * nat)) (idx : nat) : option nat :=
  match sorted_scores with
  | [] => None
  | (_, player_idx) :: r =>
      if Nat.eqb player_idx idx then Some 0%nat
      else match place_of r idx with
           | Some p => Some (S p)
           | None => None
           end
  end.

(** The body of [for position, idx in enumerate([idx1, idx2, idx3])]. *)
Definition record_position (idxs : list nat) (scores : list Z)
           (results : list stats) (position idx : nat) : fallible (list stats) :=
  tournament.rbind (lookup results idx) (fun r =>
  tournament.rbind (tournament.getitem scores position) (fun d =>
  let results := store results idx (add_score d r) in
  tournament.rbind (lookup results idx) (fun r =>
  let results := store results idx (add_match r) in
  tournament.rbind (score_pairs scores idxs) (fun pairs =>
  let sorted_scores := sorted_reverse fst pairs in
  match place_of sorted_scores idx with
  | Some place =>
      tournament.rbind (lookup results idx) (fun r =>
      Ok (store results idx (add_place place r)))
  | None => Ok results
  end)))).

(** The body of [for scores in matches]. *)
Definition record_match (k : key) (results : list stats) (scores : list Z)
  : fallible (list stats) :=
  let '(idx1, idx2, idx3) := k in
  let idxs := [idx1; idx2; idx3] in
  tournament.rbind (record_position idxs scores results 0 idx1) (fun results =>
  tournament.rbind (record_position idxs scores results 1 idx2) (fun results =>
  record_position idxs scores results 2 idx3)).

Fixpoint record_matches (k : key) (matches : list (list Z))
         (results : list stats) : fallible (list stats) :=
  match matches with
  | [] => Ok results
  | scores :: rest =>
      tournament.rbind (record_match k results scores) (record_matches k rest)
  end.

Fixpoint record_matchups (m : matchups_dict) (results : list stats)
  : fallible (list stats) :=
  match m with
  | [] => Ok results
  | (k, matches) :: rest =>
      tournament.rbind (record_matches k matches results) (record_matchups rest)
  end.

(** The entry [_calculate_results] starts every agent with. *)
Definition new_stats (agent_name : string) : stats :=
  {| name := agent_name; total_score := 0; matches_played := 0;
     num_first_places := 0; num_second_places := 0; num_third_places := 0 |}.

(** [Tournament._calculate_results], from the names in [self.agents] and from
    [self.matchups]; it returns the new [self.results]. *)
Definition _calculate_results (agent_names : list string) (m : matchups_dict)
  : fallible (list stats) :=
  record_matchups m (map new_stats agent_names).

Section RoundRobin.

(** What the three agents of the [match_count]-th match do in each of its
    hands, and the deals of that match. *)
Variable match_players : nat -> nat -> vec3 dealer.player.
Variable match_deals : nat -> nat -> vec3 Z.
Variable fuel : nat.
Variable hands_per_matchup : nat.

(** [Match(players, num_hands=hands_per_matchup, rng=rng).play()] for the
    [match_count]-th match of the tournament. *)
Definition match_play (match_count : nat) : fallible (list Z) :=
  tournament.play (match_players match_count) (match_deals match_count) fuel
                  hands_per_matchup tournament.initial_scores true.

(** [for idx1, idx2, idx3 in matchups], from the count of matches so far. *)
Fixpoint play_round (keys : list key) (match_count : nat) (m : matchups_dict)
  : fallible (nat * matchups_dict) :=
  match keys with
  | [] => Ok (match_count, m)
  | k :: rest =>
      let match_count := S match_count in
      tournament.rbind (match_play match_count) (fun scores =>
      play_round rest match_count (dict_append m k scores))
  end.

(** [for round_num in range(num_rounds)] *)
Fixpoint play_rounds (num_rounds : nat) (keys : list key) (match_count : nat)
         (m : matchups_dict) : fallible (nat * matchups_dict) :=
  match num_rounds with
  | O => Ok (match_count, m)
  | S rounds =>
      tournament.rbind (play_round keys match_count m) (fun '(match_count, m) =>
      play_rounds rounds keys match_count m)
  end.

(** [Tournament.run_round_robin] on a tournament whose [self.matchups] is [m];
    it returns [self.results], and the new [self.matchups] with it. *)
Definition run_round_robin (agent_names : list string) (num_rounds : nat)
           (m : matchups_dict) : fallible (list stats * matchups_dict) :=
  let n := length agent_names in
  let matchups := matchup_keys n in
  tournament.rbind (play_rounds num_rounds matchups 0 m) (fun '(_, m) =>
  tournament.rbind (_calculate_results agent_names m) (fun results =>
  Ok (results, m))).

End RoundRobin.

(** [sorted(self.results.items(), key=total_score, reverse=True)] and the list
    [get_rankings] builds from it, for [sort_by='total_score']. *)
Definition get_rankings (results : list stats) : list (string * stats) :=
  map (fun entry => (name (snd entry), snd entry))
      (sorted_reverse (fun entry => total_score (snd entry))
                      (combine (seq 0 (length results)) results)).

End Tournament.

(** ** Measures on the results of a tournament *)

(** How many of the three indices of a matchup are [i]. *)
Definition occurrences (i : nat) (k : Tournament.key) : Z :=
  let '(i1, i2, i3) := k in
  (if Nat.eqb i1 i then 1 else 0) + (if Nat.eqb i2 i then 1 else 0)
  + (if Nat.eqb i3 i then 1 else 0).

(** The three scores of a match, added up. *)
Definition match_total (scores : list Z) : Z :=
  nth 0 scores 0 + nth 1 scores 0 + nth 2 scores 0.

(** The number of matches [self.matchups] holds with agent [i] in them, a
    match counted once for each seat the agent has in it. *)
Definition matches_with (i : nat) (m : Tournament.matchups_dict) : Z :=
  sum (map (fun e => occurrences i (fst e) * Z.of_nat (length (snd e))) m).

(** The scores of all the matches [self.matchups] holds, added up. *)
Definition matchups_total (m : Tournament.matchups_dict) : Z :=
  sum (map (fun e => sum (map match_total (snd e))) m).

(** An entry whose three place counters add up to its matches. *)
Definition balanced (r : Tournament.stats) : Prop :=
  Tournament.num_first_places r + Tournament.num_second_places r
  + Tournament.num_third_places r = Tournament.matches_played r.

(** What one seat of one match adds to the entry of the agent in it. *)
Definition credit (place : nat) (d : Z) (r : Tournament.stats)
  : Tournament.stats :=
  Tournament.add_place place (Tournament.add_match (Tournament.add_score d r)).

(** The place of seat [p] among three scores: the number of seats with a higher
    score, plus the number of earlier seats with the same score. *)
Definition place_among (s0 s1 s2 : Z) (p : nat) : nat :=
  let s := nth p [s0; s1; s2] 0 in
  let higher (x : Z) : nat := if x >? s then 1%nat else 0%nat in
  let tied (j : nat) (x : Z) : nat :=
    if (j <? p)%nat && (x =? s) then 1%nat else 0%nat in
  (higher s0 + higher s1 + higher s2 + tied 0%nat s0 + tied 1%nat s1
   + tied 2%nat s2)%nat.

(** [n] choose [k]. *)
Fixpoint binom (n k : nat) : nat :=
  match n, k with
  | _, O => 1%nat
  | O, S _ => 0%nat
  | S n', S k' => (binom n' k' + binom n' k)%nat
  end.

(** [results'] is [results] with the entry of [idx] credited for one seat of
    one match, with the score [d] and one of the three places. *)
Definition credited (results : list Tournament.stats) (idx : nat) (d : Z)
           (results' : list Tournament.stats) : Prop :=
  exists r p,
    Tournament.lookup results idx = Ok r /\ (p < 3)%nat /\
    results' = Tournament.store results idx (credit p d r).

(** The results of four agents before any match is recorded. *)
Definition demo_results : list Tournament.stats :=
  map Tournament.new_stats ["ann"; "bob"; "cyd"; "dee"]%string.

(** How often [x] is in the list [c]. *)
Definition count_in (x : nat) (c : list nat) : nat := count_occ Nat.eq_dec c x.

(** A tournament of four agents over two rounds of four-hand matches, in which
    every match is played the way the demonstration match is. *)
Definition demo_names : list string := ["ann"; "bob"; "cyd"; "dee"]%string.

Definition demo_round_robin
  : fallible (list Tournament.stats * Tournament.matchups_dict) :=
  Tournament.run_round_robin (fun _ => demo_players) (fun _ => demo_deal) 5 4
                             demo_names 2 [].

Definition demo_round_robin_results : list Tournament.stats :=
  match demo_round_robin with
  | Ok (results, _) => results
  | _ => []
  end.

Definition demo_round_robin_matchups : Tournament.matchups_dict :=
  match demo_round_robin with
  | Ok (_, m) => m
  | _ => []
  end.

(** ** The rest of [kuhn3p/validator.py] *)

(** An object handed to the validator: an instance of [kuhn3p.Player], or
    something else. *)
Inductive pyobject : Type :=
| PlayerObject (a : Player.t)
| OtherObject (repr : string).

(** [isinstance(x, Player)] *)
Definition isinstance_Player (x : pyobject) : bool :=
  match x with
  | PlayerObject _ => true
  | OtherObject _ => false
  end.

(** [AgentValidator(agent, agent_name)], with the check of [__init__]. *)
Definition AgentValidator_init (agent : pyobject) (agent_name : string)
  : fallible validator.AgentValidator :=
  match agent with
  | PlayerObject a =>
      Ok {| validator.agent := a; validator.agent_name := agent_name |}
  | OtherObject _ => Raise TypeError
  end.

(** [create_safe_player(agent, name)] *)
Definition create_safe_player (agent : pyobject) (name : string)
  : fallible validator.AgentValidator :=
  AgentValidator_init agent name.

(** An element of the list given to [validate_agents]: a [(name, agent)] tuple,
    or an agent alone, with what [str] makes of it. *)
Inductive agent_info : Type :=
| NamedAgent (name : string) (agent : pyobject)
| BareAgent (agent : pyobject) (str : outcome string).

Definition info_agent (info : agent_info) : pyobject :=
  match info with
  | NamedAgent _ agent => agent
  | BareAgent agent _ => agent
  end.

(** The name [validate_agents] takes for an element. *)
Definition info_name (info : agent_info) : fallible string :=
  match info with
  | NamedAgent name _ => Ok name
  | BareAgent _ (Returns name) => Ok name
  | BareAgent _ (Raises e) => Raise e
  end.

(** The loop of [validate_agents], from the validators appended so far. *)
Fixpoint validate_agents_from (agents_list : list agent_info)
         (validated : list validator.AgentValidator)
  : fallible (list validator.AgentValidator) :=
  match agents_list with
  | [] => Ok validated
  | info :: rest =>
      tournament.rbind (info_name info) (fun name =>
      let agent := info_agent info in
      if negb (isinstance_Player agent) then Raise TypeError
      else
        tournament.rbind (AgentValidator_init agent name) (fun v =>
        validate_agents_from rest (validated ++ [v])))
  end.

(** [validate_agents(agents_list)] *)
Definition validate_agents (agents_list : list agent_info)
  : fallible (list validator.AgentValidator) :=
  validate_agents_from agents_list [].

(** The validator [validate_agents] makes of an element that holds a player and
    has a name. *)
Definition validator_of (info : agent_info) (v : validator.AgentValidator)
  : Prop :=
  info_agent info = PlayerObject (validator.agent v) /\
  info_name info = Ok (validator.agent_name v).

(** ** [AgentRegistry] of [kuhn3p/agents.py] *)

Module AgentRegistry.

(** A dictionary with string keys, in insertion order. *)
Definition dict (V : Type) : Type := list (string * V).

(** [d.get(key)] *)
Fixpoint get {V : Type} (d : dict V) (key : string) : option V :=
  match d with
  | [] => None
  | (k, v) :: r => if String.eqb k key then Some v else get r key
  end.

(** The dictionary after [d[key] = v]: an old key keeps its position. *)
Fixpoint set {V : Type} (d : dict V) (key : string) (v : V) : dict V :=
  match d with
  | [] => [(key, v)]
  | (k, w) :: r =>
      if String.eqb k key then (k, v) :: r else (k, w) :: set r key v
  end.

(** [{**defaults, **kwargs}] *)
Definition merge {V : Type} (defaults kwargs : dict V) : dict V :=
  fold_left (fun d kv => set d (fst kv) (snd kv)) kwargs defaults.

(** [list(d.keys())] *)
Definition keys {V : Type} (d : dict V) : list string := map fst d.

Section Registry.

(** The instances agent classes make. *)
Variable instance : Type.

(** An agent class: whether it extends [Player], and what calling it with
    keyword arguments gives. *)
Record agent_class : Type := {
  issubclass_Player : bool;
  construct : dict pyval -> outcome instance
}.

(** The two dictionaries of a registry. *)
Record t : Type := {
  agents : dict (agent_class * dict pyval);
  instances : dict instance
}.

(** [AgentRegistry()] *)
Definition empty : t := {| agents := []; instances := [] |}.

(** [register(name, agent_class, **default_kwargs)] *)
Definition register (self : t) (name : string) (cls : agent_class)
           (default_kwargs : dict pyval) : fallible t :=
  if negb (issubclass_Player cls) then Raise AssertionError
  else Ok {| agents := set (agents self) name (cls, default_kwargs);
             instances := instances self |}.

(** [create(name, **kwargs)] *)
Definition create (self : t) (name : string) (kwargs : dict pyval)
  : fallible instance :=
  match get (agents self) name with
  | None => Raise ValueError
  | Some (cls, defaults) =>
      let params := merge defaults kwargs in
      match construct cls params with
      | Returns i => Ok i
      | Raises e => Raise e
      end
  end.

(** [create_instance(name, **kwargs)]: the instance, and the registry after the
    call. *)
Definition create_instance (self : t) (name : string) (kwargs : dict pyval)
  : fallible (t * instance) :=
  match get (instances self) name with
  | Some i => Ok (self, i)
  | None =>
      tournament.rbind (create self name kwargs) (fun i =>
      Ok ({| agents := agents self;
             instances := set (instances self) name i |}, i))
  end.

(** [list_agents()] *)
Definition list_agents (self : t) : list string := keys (agents self).

End Registry.

End AgentRegistry.

(** An agent class whose instances are told apart by the [bluff] parameter they
    were made with; it needs that parameter. *)
Definition demo_class : AgentRegistry.agent_class pyval :=
  {| AgentRegistry.issubclass_Player := true;
     AgentRegistry.construct := fun params =>
       match AgentRegistry.get params "bluff" with
       | Some v => Returns v
       | None => Raises TypeError
       end |}.

(** ** [run_tournament] of [run_tournament.py] *)

(** [l[:k]] for an integer [k]; a negative [k] counts from the end. *)
Definition slice_to {A : Type} (l : list A) (k : Z) : list A :=
  if k <? 0 then firstn (Z.to_nat (Z.of_nat (length l) + k)) l
  else firstn (Z.to_nat k) l.

(** The agents [run_tournament] keeps: [agents_list[:num_agents]] when
    [num_agents] is true, that is neither [None] nor 0. *)
Definition select_agents {A : Type} (agents_list : list A)
           (num_agents : option Z) : list A :=
  match num_agents with
  | None => agents_list
  | Some k => if k =? 0 then agents_list else slice_to agents_list k
  end.

(** [run_tournament] up to what it prints and writes: the round robin of a new
    [Tournament] of the agents it keeps. *)
Definition run_tournament (match_players : nat -> nat -> vec3 dealer.player)
           (match_deals : nat -> nat -> vec3 Z) (fuel : nat)
           (agent_names : list string) (num_agents : option Z)
           (hands_per_match : nat) (num_rounds : nat)
  : fallible (list Tournament.stats * Tournament.matchups_dict) :=
  Tournament.run_round_robin match_players match_deals fuel hands_per_match
                             (select_agents agent_names num_agents)
                             num_rounds [].

(** The order of a ranking: a higher total score first, and the lower index
    first among equal total scores. *)
Definition ranking_order (a b : nat * Tournament.stats) : Prop :=
  Tournament.total_score (snd a) > Tournament.total_score (snd b) \/
  (Tournament.total_score (snd a) = Tournament.total_score (snd b) /\
   (fst a < fst b)%nat).

(** The [act] call an event records was made for the seat to act with that
    seat's card, and the validator of that seat returns an action for it, so
    that the [except] clause of the dealer's loop is not entered at that call.
    Events that are no [act] call pass. *)
Definition act_answered (players : vec3 dealer.player) (cards : vec3 Z)
           (e : event) : bool :=
  match e with
  | CallAct s c =>
      match betting.actor s with
      | Ok p =>
          (c =? get3 cards p) &&
          match snd (validator.act (get3 (dealer.validated players) p) s c) with
          | Ok _ => true
          | _ => false
          end
      | _ => false
      end
  | _ => true
  end.

(** No seat forfeits in a hand that made the calls [tr] and ended at [s]:
    every action of [s] was asked for by an [act] call (the validator raised
    at none of its input checks, which make no call), and every [act] call
    returned an action the validator accepted. *)
Definition no_forfeit (players : vec3 dealer.player) (cards : vec3 Z)
           (tr : list event) (s : betting.state) : Prop :=
  length (filter is_act_event tr) = betting.decision_depth s /\
  forallb (act_answered players cards) tr = true.

(** What three agents of the template are paid: 2 to the holder of the highest
    card, -1 to the others. *)
Definition highest_card_payout (cards : vec3 Z) : list Z :=
  let '(c0, c1, c2) := cards in
  let top := Z.max c0 (Z.max c1 c2) in
  map (fun c => if c =? top then 2 else -1) [c0; c1; c2].

(** * Properties *)

(** ** The automaton *)

Section Automaton.

Import betting.

Lemma action_eqb_eq a b : action_eqb a b = true -> a = b.
Proof. destruct a, b; simpl; congruence. Qed.

Lemma state_eqb_eq s : forall t, state_eqb s t = true -> s = t.
Proof.
  induction s as [|[p a] s IH]; intros [|[q b] t]; simpl; try congruence.
  intro H.
  apply andb_prop in H as [H Hst]. apply andb_prop in H as [Hpq Hab].
  apply Nat.eqb_eq in Hpq. apply action_eqb_eq in Hab.
  rewrite (IH t Hst). congruence.
Qed.

Lemma state_eqb_refl s : state_eqb s s = true.
Proof.
  induction s as [|[p a] s IH]; simpl; trivial.
  rewrite Nat.eqb_refl, IH. destruct a; reflexivity.
Qed.

Lemma mem_In s l : mem s l = true <-> In s l.
Proof.
  unfold mem. rewrite existsb_exists. split.
  - intros (t & Hin & Heq). apply state_eqb_eq in Heq. now subst.
  - intro Hin. exists s. split; [assumption | apply state_eqb_refl].
Qed.

(** A property checked on each of the enumerated states holds of all of them. *)
Lemma all_states_ind (P : state -> bool) :
  forallb P all_states = true -> forall s, In s all_states -> P s = true.
Proof. intros H s Hs. rewrite forallb_forall in H. now apply H. Qed.

Lemma internal_not_terminal s : is_internal s = true -> is_terminal s = false.
Proof.
  unfold is_internal, is_terminal.
  destruct (well_formed s); simpl; [|congruence].
  destruct (next_to_act s); congruence.
Qed.

Lemma terminal_not_internal s : is_terminal s = true -> is_internal s = false.
Proof.
  unfold is_internal, is_terminal.
  destruct (well_formed s); simpl; [|congruence].
  destruct (next_to_act s); congruence.
Qed.

Lemma actor_internal s p : actor s = Ok p -> is_internal s = true.
Proof. unfold actor. destruct (is_internal s); congruence. Qed.

Lemma internal_actor s :
  is_internal s = true -> exists p, actor s = Ok p /\ next_to_act s = Some p.
Proof.
  intro H. unfold actor. rewrite H. unfold is_internal in H.
  apply andb_prop in H as [_ H].
  destruct (next_to_act s) as [p|]; [eauto | discriminate].
Qed.

Lemma act_passive s p : actor s = Ok p -> act s 0 = Ok (s ++ [(p, Passive)]).
Proof. intro H. unfold act. now rewrite H. Qed.

Lemma act_aggressive s p :
  actor s = Ok p -> act s 1 = Ok (s ++ [(p, Aggressive)]).
Proof. intro H. unfold act. now rewrite H. Qed.

Lemma act_inv s a t :
  act s a = Ok t ->
  exists p, actor s = Ok p /\
            ((a = 0 /\ t = s ++ [(p, Passive)]) \/
             (a = 1 /\ t = s ++ [(p, Aggressive)])).
Proof.
  unfold act. destruct (actor s) as [p| |]; try discriminate.
  destruct (Z.eqb_spec a 0) as [->|_].
  - intros [= <-]. eauto.
  - destruct (Z.eqb_spec a 1) as [->|_]; [|discriminate].
    intros [= <-]. eauto.
Qed.


Lemma can_bet_or_facing_bet s :
  is_internal s = true -> facing_bet s = negb (can_bet s).
Proof.
  intro H. unfold facing_bet, can_bet. rewrite H.
  destruct (outstanding s); reflexivity.
Qed.

(** The enumeration is closed under both actions. *)
Lemma all_states_closed s a t :
  In s all_states -> act s a = Ok t -> In t all_states.
Proof.
  intros Hs Hact.
  assert (Hc : forallb (fun s => forallb (fun a =>
                 match act s a with
                 | Ok t => mem t all_states
                 | _ => true
                 end) [0; 1]) all_states = true) by (vm_compute; reflexivity).
  pose proof (all_states_ind _ Hc s Hs) as H. cbn [forallb] in H.
  apply andb_prop in H as [H0 H1]. apply andb_prop in H1 as [H1 _].
  apply mem_In.
  destruct (act_inv _ _ _ Hact) as (p & _ & [[-> _]|[-> _]]).
  - now rewrite Hact in H0.
  - now rewrite Hact in H1.
Qed.

Lemma reachable_in_all_states s : reachable s -> In s all_states.
Proof.
  induction 1 as [|s a t _ IH Hact].
  - apply mem_In. vm_compute. reflexivity.
  - eapply all_states_closed; eassumption.
Qed.

Lemma children_reachable l :
  Forall reachable l -> Forall reachable (flat_map children l).
Proof.
  intro H. apply Forall_forall. intros t Ht.
  apply in_flat_map in Ht as (s & Hs & Ht).
  rewrite Forall_forall in H. specialize (H s Hs).
  unfold children in Ht. apply in_flat_map in Ht as (a & _ & Ht).
  destruct (act s a) as [u| |] eqn:Hact; simpl in Ht; try contradiction.
  destruct Ht as [<-|[]]. econstructor; eassumption.
Qed.

Lemma bfs_reachable depth :
  forall l, Forall reachable l -> Forall reachable (bfs depth l).
Proof.
  induction depth as [|d IH]; intros l Hl; simpl; [assumption|].
  apply Forall_app. split; [assumption|].
  apply IH. now apply children_reachable.
Qed.

Lemma in_all_states_reachable s : In s all_states -> reachable s.
Proof.
  revert s. apply Forall_forall. apply bfs_reachable.
  constructor; [constructor | constructor].
Qed.

Lemma all_states_well_formed s : In s all_states -> well_formed s = true.
Proof. apply all_states_ind. vm_compute. reflexivity. Qed.

Lemma replay_reachable rest :
  forall prefix, reachable prefix -> replay prefix rest = true ->
                 reachable (prefix ++ rest).
Proof.
  induction rest as [|[p a] r IH]; intros prefix Hp Hr; simpl in *.
  - now rewrite app_nil_r.
  - destruct (next_to_act prefix) as [q|] eqn:Hq; [|discriminate].
    apply andb_prop in Hr as [Hpq Hr]. apply Nat.eqb_eq in Hpq. subst q.
    assert (Hact : actor prefix = Ok p).
    { unfold actor, is_internal.
      rewrite (all_states_well_formed _ (reachable_in_all_states _ Hp)), Hq.
      reflexivity. }
    change (prefix ++ (p, a) :: r) with (prefix ++ [(p, a)] ++ r).
    rewrite app_assoc. apply IH; [|assumption].
    destruct a.
    + eapply reachable_act; [eassumption | now apply act_passive].
    + eapply reachable_act; [eassumption | now apply act_aggressive].
Qed.

Lemma well_formed_in_all_states s : well_formed s = true -> In s all_states.
Proof.
  intro H. apply reachable_in_all_states.
  apply (replay_reachable s [] reachable_root H).
Qed.

Lemma internal_in_all_states s : is_internal s = true -> In s all_states.
Proof.
  intro H. apply well_formed_in_all_states.
  unfold is_internal in H. now apply andb_prop in H as [H _].
Qed.

Lemma terminal_in_all_states s : is_terminal s = true -> In s all_states.
Proof.
  intro H. apply well_formed_in_all_states.
  unfold is_terminal in H. now apply andb_prop in H as [H _].
Qed.

(** An enumerated state is internal or terminal, and an internal one is fewer
    than five actions deep. *)
Lemma all_states_internal_or_terminal s :
  In s all_states -> is_terminal s = false -> is_internal s = true.
Proof.
  intros Hs Ht.
  assert (H : forallb (fun s => is_terminal s || is_internal s) all_states
              = true) by (vm_compute; reflexivity).
  pose proof (all_states_ind _ H s Hs) as H'. simpl in H'.
  rewrite Ht in H'. exact H'.
Qed.

Lemma internal_depth s :
  is_internal s = true -> (decision_depth s < 5)%nat.
Proof.
  intro Hi. pose proof (internal_in_all_states s Hi) as Hs.
  assert (H : forallb (fun s => negb (is_internal s)
                                || (decision_depth s <? 5)%nat) all_states
              = true) by (vm_compute; reflexivity).
  pose proof (all_states_ind _ H s Hs) as H'. simpl in H'.
  rewrite Hi in H'. now apply Nat.ltb_lt.
Qed.


End Automaton.

Section Enumeration.

Import betting.

Lemma nodupb_NoDup l : nodupb l = true -> NoDup l.
Proof.
  induction l as [|s r IH]; simpl; intro H; constructor.
  - apply andb_prop in H as [H _]. intro Hin. apply mem_In in Hin.
    now rewrite Hin in H.
  - apply IH. now apply andb_prop in H as [_ H].
Qed.

(** C9: enumerating the betting tree breadth-first from the root, through five
    action levels, lists every reachable state once; there are 25 of them, 12
    internal and 13 terminal. *)
Theorem reachable_states_count :
  (forall s, reachable s <-> In s all_states) /\
  NoDup all_states /\
  length all_states = 25%nat /\
  length (filter is_internal all_states) = 12%nat /\
  length (filter is_terminal all_states) = 13%nat.
Proof.
  split; [|split; [|split; [|split]]].
  - intro s. split.
    + apply reachable_in_all_states.
    + apply in_all_states_reachable.
  - apply nodupb_NoDup. vm_compute. reflexivity.
  - vm_compute. reflexivity.
  - vm_compute. reflexivity.
  - vm_compute. reflexivity.
Qed.

End Enumeration.

(** ** The winner of a hand *)

Section Winner.

Import betting.

Lemma terminal_has_active_seat s :
  is_terminal s = true -> (1 <= length (active_seats s))%nat.
Proof.
  intro Ht. pose proof (terminal_in_all_states s Ht) as Hs.
  assert (H : forallb (fun s => negb (is_terminal s)
                                || (1 <=? length (active_seats s))%nat)
                      all_states = true) by (vm_compute; reflexivity).
  pose proof (all_states_ind _ H s Hs) as H'. simpl in H'.
  rewrite Ht in H'. now apply Nat.leb_le.
Qed.

Ltac seat_cases j Hj :=
  destruct j as [|[|[|j]]]; [| | | exfalso; lia]; clear Hj.

Lemma winner_correct s cards :
  is_terminal s = true -> valid_deal cards ->
  exists w, (w < 3)%nat /\ dealer.winner s cards = Ok (Z.of_nat w) /\
            if is_showdown s then highest_active s cards w
            else sole_survivor s w.
Proof.
  intros Ht Hdeal. pose proof (terminal_has_active_seat s Ht) as Hact.
  destruct cards as [[c0 c1] c2].
  destruct Hdeal as (H0 & H1 & H2 & H01 & H02 & H12).
  unfold valid_rank in H0, H1, H2.
  unfold dealer.winner, highest_active, sole_survivor, bettor.
  rewrite Ht. cbn [negb].
  unfold is_showdown. rewrite Ht. cbn [andb].
  unfold active_seats in *. cbn [filter range3 fold_left get3 snd] in *.
  destruct (at_showdown s 0%nat) eqn:A0, (at_showdown s 1%nat) eqn:A1,
           (at_showdown s 2%nat) eqn:A2;
    cbn [length Nat.leb andb get3 snd fst] in *; try (exfalso; lia);
    repeat (match goal with
            | |- context [?a >? ?b] =>
                is_var a; first [is_var b | constr_eq b (-1)];
                destruct (Z.gtb_spec a b); try lia
            end; cbn [snd fst]);
    match goal with
    | |- exists w, _ /\ Ok (Z.of_nat ?k) = _ /\ _ =>
        exists k; split; [lia | split; [reflexivity | split; [assumption|]]]
    | |- exists w, _ /\ Ok ?z = _ /\ _ =>
        exists (Z.to_nat z); split; [simpl; lia | split; [reflexivity|]];
        split; [assumption|]
    end;
    intros j Hj Aj; try intros Hne; seat_cases j Hj;
    cbn [get3 Z.to_nat Pos.to_nat Pos.iter_op Nat.add] in *;
    try congruence; try lia.
Qed.

End Winner.

(** C7: at a terminal state and for a deal of three distinct ranks, [winner]
    returns the sole active seat when the state is not a showdown, and the
    active seat with the strictly highest rank among the active seats when it
    is one. *)
Theorem winner_sole_survivor_or_highest s cards :
  betting.is_terminal s = true -> valid_deal cards ->
  exists w, (w < 3)%nat /\ dealer.winner s cards = Ok (Z.of_nat w) /\
            (betting.is_showdown s = false -> sole_survivor s w) /\
            (betting.is_showdown s = true -> highest_active s cards w).
Proof.
  intros Ht Hdeal.
  destruct (winner_correct s cards Ht Hdeal) as (w & Hw & Hwin & Hspec).
  exists w. split; [assumption|]. split; [assumption|].
  split; intro Hs; rewrite Hs in Hspec; exact Hspec.
Qed.

Lemma winner_sole_survivor_or_highest_witness :
  exists w, (w < 3)%nat /\
            dealer.winner [(0%nat, betting.Passive); (1%nat, betting.Aggressive);
                           (2%nat, betting.Aggressive); (0%nat, betting.Passive)]
                          (3, 0, 2) = Ok (Z.of_nat w) /\
            (betting.is_showdown
               [(0%nat, betting.Passive); (1%nat, betting.Aggressive);
                (2%nat, betting.Aggressive); (0%nat, betting.Passive)] = false ->
             sole_survivor
               [(0%nat, betting.Passive); (1%nat, betting.Aggressive);
                (2%nat, betting.Aggressive); (0%nat, betting.Passive)] w) /\
            (betting.is_showdown
               [(0%nat, betting.Passive); (1%nat, betting.Aggressive);
                (2%nat, betting.Aggressive); (0%nat, betting.Passive)] = true ->
             highest_active
               [(0%nat, betting.Passive); (1%nat, betting.Aggressive);
                (2%nat, betting.Aggressive); (0%nat, betting.Passive)]
               (3, 0, 2) w).
Proof.
  apply winner_sole_survivor_or_highest.
  - reflexivity.
  - unfold valid_deal, valid_rank. lia.
Defined.

(** ** Running a hand *)

Section Hand.

Lemma bind_Ok_inv {A B} (m : M A) (f : A -> M B) tr b :
  bind m f = (tr, Ok b) ->
  exists tr1 a tr2, m = (tr1, Ok a) /\ f a = (tr2, Ok b) /\ tr = tr1 ++ tr2.
Proof.
  unfold bind. destruct m as [tr1 [a|e|]]; try discriminate.
  destruct (f a) as [tr2 r] eqn:Hf. intros [= <- ->].
  exists tr1, a, tr2. auto.
Qed.



(** What [AgentValidator.act] lets through is 0 or 1. *)
Lemma validator_act_Ok v s card tr a :
  validator.act v s card = (tr, Ok a) -> a = 0 \/ a = 1.
Proof.
  unfold validator.act, lift.
  destruct (negb (betting.is_internal s)); [discriminate|].
  destruct (negb _); [discriminate|].
  destruct (Player.act _ s card) as [x|e].
  - destruct (negb (isinstance_int_bool x)); [discriminate|].
    destruct (Z.eqb_spec (int_of x) 0) as [H0|H0]; simpl.
    + destruct (negb _); [discriminate|]. intros [= _ <-]. now left.
    + destruct (Z.eqb_spec (int_of x) 1) as [H1|H1]; simpl; [|discriminate].
      destruct (negb _); [discriminate|]. intros [= _ <-]. now right.
  - destruct (isinstance_Exception e); discriminate.
Qed.

Lemma validator_act_not_OutOfFuel v s card tr :
  validator.act v s card <> (tr, OutOfFuel).
Proof.
  unfold validator.act, lift.
  repeat match goal with
         | |- context [if ?b then _ else _] => destruct b
         | |- context [match ?x with _ => _ end] => destruct x
         end; discriminate.
Qed.


Lemma action_loop_S fuel vp cards s :
  dealer.action_loop (S fuel) vp cards s =
  if betting.is_terminal s then ret s
  else
    player <- lift (betting.actor s) ;;
    match validator.act (get3 vp player) s (get3 cards player) with
    | (tr, Ok action) =>
        state' <- (tr, betting.act s action) ;;
        dealer.action_loop fuel vp cards state'
    | (tr, Raise e) =>
        if isinstance_ValueError_RuntimeError e then
          state' <- (tr, betting.act s (dealer.forced_action s)) ;;
          ret state'
        else (tr, Raise e)
    | (tr, OutOfFuel) => (tr, OutOfFuel)
    end.
Proof. reflexivity. Qed.

Lemma action_loop_terminal fuel vp cards s :
  betting.is_terminal s = true ->
  dealer.action_loop fuel vp cards s = ret s.
Proof. intro H. destruct fuel; simpl; now rewrite H. Qed.

Lemma bind_lift_Ok {A B} (a : A) (f : A -> M B) :
  bind (lift (Ok a)) f = f a.
Proof. unfold bind, lift. destruct (f a). reflexivity. Qed.

Lemma forced_action_act s p :
  betting.actor s = Ok p ->
  betting.act s (dealer.forced_action s)
  = Ok (s ++ [(p, if betting.can_bet s then betting.Passive
                  else betting.Aggressive)]).
Proof.
  intro Hp. unfold dealer.forced_action, betting.CHECK, betting.FOLD.
  destruct (betting.can_bet s).
  - now apply act_passive.
  - now apply act_aggressive.
Qed.

(** From a reachable state the loop needs at most as many rounds as there are
    action levels left. *)
Lemma action_loop_terminates fuel :
  forall vp cards s,
    In s betting.all_states -> (5 <= fuel + betting.decision_depth s)%nat ->
    snd (dealer.action_loop fuel vp cards s) <> OutOfFuel.
Proof.
  induction fuel as [|fuel IH]; intros vp cards s Hs Hfuel;
    (destruct (betting.is_terminal s) eqn:Ht;
     [rewrite action_loop_terminal by assumption; simpl; discriminate|]);
    pose proof (all_states_internal_or_terminal s Hs Ht) as Hi;
    pose proof (internal_depth s Hi) as Hd.
  - exfalso. simpl in Hfuel. lia.
  - rewrite action_loop_S, Ht.
    destruct (internal_actor s Hi) as (p & Hp & _).
    rewrite Hp, bind_lift_Ok.
    destruct (validator.act (get3 vp p) s (get3 cards p)) as [tr [a|e|]] eqn:Hv.
    + assert (Hstep : exists t, betting.act s a = Ok t /\
                                betting.decision_depth t
                                = S (betting.decision_depth s)).
      { destruct (validator_act_Ok _ _ _ _ _ Hv) as [-> | ->].
        - rewrite (act_passive s p Hp). eexists. split; [reflexivity|].
          unfold betting.decision_depth. rewrite length_app. simpl. lia.
        - rewrite (act_aggressive s p Hp). eexists. split; [reflexivity|].
          unfold betting.decision_depth. rewrite length_app. simpl. lia. }
      destruct Hstep as (t & Hact & Hdepth). rewrite Hact. unfold bind.
      specialize (IH vp cards t (all_states_closed _ _ _ Hs Hact)).
      destruct (dealer.action_loop fuel vp cards t) as [tr' r]. simpl in *.
      apply IH. lia.
    + destruct (isinstance_ValueError_RuntimeError e); [|simpl; discriminate].
      rewrite (forced_action_act s p Hp). simpl. discriminate.
    + exfalso. eapply validator_act_not_OutOfFuel. eassumption.
Qed.


End Hand.

Section PlayHand.

Lemma play_hand_Ok_inv fuel players cards tr s d :
  dealer.play_hand fuel players cards = (tr, Ok (s, d)) ->
  exists tr0 w,
    dealer.action_loop fuel (dealer.validated players) cards betting.root
    = (tr0, Ok s) /\
    dealer.winner s cards = Ok w /\
    d = dealer.deltas s w (betting.pot_size s).
Proof.
  unfold dealer.play_hand. intro H.
  apply bind_Ok_inv in H as (t1 & [] & t1' & _ & H & _).
  apply bind_Ok_inv in H as (t2 & st & t2' & Hloop & H & _).
  apply bind_Ok_inv in H as (t3 & sh & t3' & _ & H & _).
  apply bind_Ok_inv in H as (t4 & w & t4' & Hwin & H & _).
  cbv beta zeta in H. unfold ret in H. injection H as _ Hs Hd.
  unfold lift in Hwin. injection Hwin as _ Hwin. subst s d.
  exists t2, w. auto.
Qed.

Lemma winner_Ok_terminal s cards w :
  dealer.winner s cards = Ok w -> betting.is_terminal s = true.
Proof.
  unfold dealer.winner. destruct (betting.is_terminal s); [reflexivity|].
  discriminate.
Qed.

Lemma bind_not_OutOfFuel {A B} (m : M A) (f : A -> M B) :
  snd m <> OutOfFuel -> (forall a, snd (f a) <> OutOfFuel) ->
  snd (bind m f) <> OutOfFuel.
Proof.
  intros Hm Hf. unfold bind. destruct m as [tr [a|e|]]; simpl in *.
  - specialize (Hf a). now destruct (f a).
  - discriminate.
  - now elim Hm.
Qed.

Lemma for_each_not_OutOfFuel l body :
  (forall i, snd (body i) <> OutOfFuel) ->
  snd (for_each l body) <> OutOfFuel.
Proof.
  intro H. induction l as [|i r IH]; simpl.
  - discriminate.
  - apply bind_not_OutOfFuel; auto.
Qed.

Lemma for_each_sharing_not_OutOfFuel {O} l (body : nat -> O -> M O) obj :
  (forall i o, snd (body i o) <> OutOfFuel) ->
  snd (for_each_sharing l body obj) <> OutOfFuel.
Proof.
  intro H. revert obj. induction l as [|i r IH]; intro obj; simpl.
  - discriminate.
  - apply bind_not_OutOfFuel; auto.
Qed.



Lemma player_end_hand_not_OutOfFuel p i c s sh :
  snd (dealer.player_end_hand p i c s sh) <> OutOfFuel.
Proof.
  unfold dealer.player_end_hand, validator.end_hand.
  destruct p as [a|v].
  - destruct (Player.end_hand a i c s sh) as [l [u|e]]; discriminate.
  - destruct (Player.end_hand _ i c s sh) as [l [u|e]]; [discriminate|].
    simpl. destruct (isinstance_Exception e); discriminate.
Qed.

Lemma winner_not_OutOfFuel s cards : dealer.winner s cards <> OutOfFuel.
Proof.
  unfold dealer.winner, betting.bettor.
  destruct (betting.is_terminal s); cbn [negb]; [|discriminate].
  destruct (betting.is_showdown s).
  - match goal with
    | |- context [fold_left ?f ?l ?a] => destruct (fold_left f l a)
    end. discriminate.
  - destruct (betting.active_seats s) as [|p [|q l]]; discriminate.
Qed.

(** With enough fuel for the five action levels, a hand never runs out. *)
Lemma play_hand_terminates fuel players cards :
  (5 <= fuel)%nat -> snd (dealer.play_hand fuel players cards) <> OutOfFuel.
Proof.
  intro Hfuel. unfold dealer.play_hand.
  apply bind_not_OutOfFuel.
  { apply for_each_not_OutOfFuel. intro i. unfold validator.start_hand. simpl.
    destruct (Player.start_hand _ _ _) as [|e]; [discriminate|].
    destruct (isinstance_Exception e); discriminate. }
  intros _. apply bind_not_OutOfFuel.
  { apply action_loop_terminates.
    - apply reachable_in_all_states. constructor.
    - simpl. lia. }
  intro st. apply bind_not_OutOfFuel.
  { apply for_each_sharing_not_OutOfFuel. intros i sh.
    apply player_end_hand_not_OutOfFuel. }
  intros _. apply bind_not_OutOfFuel.
  { apply winner_not_OutOfFuel. }
  intro w. simpl. discriminate.
Qed.

End PlayHand.

(** C1: whenever [play_hand] returns for a deal of three distinct ranks, the
    state it returns is terminal and, the pot at that state being the sum of the
    three contributions, the three deltas it returns sum to zero. *)
Theorem play_hand_zero_sum fuel players cards tr s d :
  valid_deal cards ->
  dealer.play_hand fuel players cards = (tr, Ok (s, d)) ->
  betting.pot_size s
  = betting.pot_contribution s 0%nat + betting.pot_contribution s 1%nat
    + betting.pot_contribution s 2%nat ->
  betting.is_terminal s = true /\ length d = 3%nat /\ sum d = 0.
Proof.
  intros Hdeal Hplay Hpot.
  apply play_hand_Ok_inv in Hplay as (tr0 & w & _ & Hwin & ->).
  pose proof (winner_Ok_terminal _ _ _ Hwin) as Ht.
  destruct (winner_correct s cards Ht Hdeal) as (k & Hk & Hwin' & _).
  rewrite Hwin in Hwin'. injection Hwin' as ->.
  split; [assumption|]. split; [reflexivity|].
  unfold dealer.deltas, sum, range3. cbn [map fold_right].
  rewrite Hpot.
  destruct k as [|[|[|k]]]; [| | | exfalso; lia]; cbn; lia.
Qed.

Lemma play_hand_zero_sum_witness :
  betting.is_terminal
    [(0%nat, betting.Aggressive); (1%nat, betting.Aggressive);
     (2%nat, betting.Passive)] = true /\
  length [-2; -1; 3] = 3%nat /\ sum [-2; -1; 3] = 0.
Proof.
  apply (play_hand_zero_sum 5
           (dealer.Unwrapped (always (PyInt 1)),
            dealer.Unwrapped (always (PyBool true)),
            dealer.Wrapped {| validator.agent := TemplateAgent;
                              validator.agent_name := "template" |})
           (1, 0, 3)
           [CallStartHand 0 1; CallStartHand 1 0; CallStartHand 2 3;
            CallAct [] 1;
            CallAct [(0%nat, betting.Aggressive)] 0;
            CallAct [(0%nat, betting.Aggressive); (1%nat, betting.Aggressive)] 3;
            CallEndHand 0 1
              [(0%nat, betting.Aggressive); (1%nat, betting.Aggressive);
               (2%nat, betting.Passive)] [Some 1; None; Some 3];
            CallEndHand 1 0
              [(0%nat, betting.Aggressive); (1%nat, betting.Aggressive);
               (2%nat, betting.Passive)] [Some 1; None; Some 3];
            CallEndHand 2 3
              [(0%nat, betting.Aggressive); (1%nat, betting.Aggressive);
               (2%nat, betting.Passive)] [Some 1; None; Some 3]]).
  - unfold valid_deal, valid_rank. lia.
  - vm_compute. reflexivity.
  - vm_compute. reflexivity.
Defined.

(** C3: when the validator signals a forfeit ([ValueError] or [RuntimeError])
    for the seat to act at an internal state, the loop applies one action in
    its place, Check if the seat can bet and Fold if it faces a bet, and ends
    at the state this gives: nothing more is asked or applied. *)
Theorem forfeit_forces_one_action_and_stops fuel vp cards s p tr e :
  betting.is_internal s = true ->
  betting.actor s = Ok p ->
  validator.act (get3 vp p) s (get3 cards p) = (tr, Raise e) ->
  isinstance_ValueError_RuntimeError e = true ->
  (betting.can_bet s = true -> dealer.forced_action s = betting.CHECK) /\
  (betting.facing_bet s = true -> dealer.forced_action s = betting.FOLD) /\
  exists t,
    betting.act s (dealer.forced_action s) = Ok t /\
    t = s ++ [(p, if betting.can_bet s then betting.Passive
                  else betting.Aggressive)] /\
    dealer.action_loop (S fuel) vp cards s = (tr, Ok t).
Proof.
  intros Hi Hp Hv He.
  split; [|split].
  - intro Hc. unfold dealer.forced_action. now rewrite Hc.
  - intro Hf. rewrite (can_bet_or_facing_bet s Hi) in Hf.
    unfold dealer.forced_action. destruct (betting.can_bet s);
      [discriminate | reflexivity].
  - eexists. split; [exact (forced_action_act s p Hp)|]. split; [reflexivity|].
    rewrite action_loop_S, (internal_not_terminal s Hi), Hp, bind_lift_Ok.
    rewrite Hv, He, (forced_action_act s p Hp).
    unfold bind, ret. now rewrite app_nil_r.
Qed.

Lemma forfeit_forces_one_action_and_stops_witness :
  (betting.can_bet [(0%nat, betting.Aggressive)] = true ->
   dealer.forced_action [(0%nat, betting.Aggressive)] = betting.CHECK) /\
  (betting.facing_bet [(0%nat, betting.Aggressive)] = true ->
   dealer.forced_action [(0%nat, betting.Aggressive)] = betting.FOLD) /\
  exists t,
    betting.act [(0%nat, betting.Aggressive)]
                (dealer.forced_action [(0%nat, betting.Aggressive)]) = Ok t /\
    t = [(0%nat, betting.Aggressive)]
        ++ [(1%nat, if betting.can_bet [(0%nat, betting.Aggressive)]
                    then betting.Passive else betting.Aggressive)] /\
    dealer.action_loop 1
      (dealer.validated (dealer.Unwrapped (always (PyInt 1)),
                         dealer.Unwrapped (crashing (OtherException "KeyError")),
                         dealer.Unwrapped TemplateAgent))
      (2, 3, 0) [(0%nat, betting.Aggressive)]
    = ([CallAct [(0%nat, betting.Aggressive)] 3], Ok t).
Proof.
  apply (forfeit_forces_one_action_and_stops 0 _ _ _ 1%nat _ RuntimeError).
  - reflexivity.
  - reflexivity.
  - reflexivity.
  - reflexivity.
Defined.

(** ** What the agents are told at the end of a hand *)

Section EndHand.

Variable fuel : nat.
Variable players : vec3 dealer.player.
Variable cards : vec3 Z.






End EndHand.




(** ** Forfeits and failures *)

(** C2 (failing input): seat 0's [act] raises on its first turn.  The dealer
    forces Check and leaves the loop at the state after that one check, which is
    internal; the [assert] of [winner] then fails, so [play_hand] raises
    [AssertionError] instead of returning a state and three deltas. *)
Theorem forfeit_on_first_turn_raises fuel :
  betting.is_terminal [(0%nat, betting.Passive)] = false /\
  dealer.play_hand (S fuel)
    (dealer.Unwrapped (crashing (OtherException "ZeroDivisionError")),
     dealer.Unwrapped TemplateAgent, dealer.Unwrapped TemplateAgent)
    (1, 0, 2)
  = ([CallStartHand 0 1; CallStartHand 1 0; CallStartHand 2 2;
      CallAct [] 1;
      CallEndHand 0 1 [(0%nat, betting.Passive)] [Some 1; Some 0; Some 2];
      CallEndHand 1 0 [(0%nat, betting.Passive)] [Some 1; Some 0; Some 2];
      CallEndHand 2 2 [(0%nat, betting.Passive)] [Some 1; Some 0; Some 2]],
     Raise AssertionError).
Proof. split; reflexivity. Qed.

(** C4 (failing input): an agent that is passed bare and whose [end_hand]
    raises.  [start_hand] is called on the validator, [end_hand] on the element
    of [players] itself, so the exception leaves [play_hand]; the same agent
    passed already wrapped has it swallowed, as a failing [start_hand] is. *)
Theorem end_hand_exception_escapes :
  snd (dealer.play_hand 5
         (dealer.Unwrapped (sore_loser (OtherException "KeyError")),
          dealer.Unwrapped (always (PyInt 0)),
          dealer.Unwrapped (always (PyInt 0)))
         (0, 1, 2))
  = Raise (OtherException "KeyError") /\
  snd (dealer.play_hand 5
         (dealer.Wrapped {| validator.agent := sore_loser (OtherException "KeyError");
                            validator.agent_name := "sore" |},
          dealer.Unwrapped (always (PyInt 0)),
          dealer.Unwrapped (always (PyInt 0)))
         (0, 1, 2))
  = Ok ([(0%nat, betting.Passive); (1%nat, betting.Passive);
         (2%nat, betting.Passive)], [-1; -1; 2]) /\
  snd (dealer.play_hand 5
         (dealer.Unwrapped
            {| Player.start_hand := fun _ _ => Raises (OtherException "KeyError");
               Player.act := fun _ _ => Returns (PyInt 0);
               Player.end_hand := fun _ _ _ sh => (sh, Returns tt) |},
          dealer.Unwrapped (always (PyInt 0)),
          dealer.Unwrapped (always (PyInt 0)))
         (0, 1, 2))
  = Ok ([(0%nat, betting.Passive); (1%nat, betting.Passive);
         (2%nat, betting.Passive)], [-1; -1; 2]).
Proof. repeat split; vm_compute; reflexivity. Qed.

(** C5 (counterexample): seat 2 is dealt the invalid rank 7.  The validator
    refuses the call with [ValueError], the error it also raises for an agent
    that returns [None]; the dealer's loop catches it, forces Check, and the
    hand is paid out as if nothing had happened. *)
Lemma invalid_rank_is_silently_forfeited :
  let cc := [(0%nat, betting.Passive); (1%nat, betting.Passive)] in
  let v := {| validator.agent := always (PyInt 0);
              validator.agent_name := "Player_2" |} in
  validator.act v cc 7 = ([], Raise ValueError) /\
  snd (validator.act {| validator.agent := always PyNone;
                        validator.agent_name := "Player_2" |} cc 2)
  = Raise ValueError /\
  snd (validator.act v (cc ++ [(2%nat, betting.Passive)]) 2) = Raise ValueError /\
  isinstance_ValueError_RuntimeError ValueError = true /\
  dealer.action_loop 5
    (dealer.validated (dealer.Unwrapped (always (PyInt 0)),
                       dealer.Unwrapped (always (PyInt 0)),
                       dealer.Unwrapped (always (PyInt 0))))
    (0, 1, 7) cc
  = ([], Ok (cc ++ [(2%nat, betting.Passive)])) /\
  snd (dealer.play_hand 5
         (dealer.Unwrapped (always (PyInt 0)),
          dealer.Unwrapped (always (PyInt 0)),
          dealer.Unwrapped (always (PyInt 0)))
         (0, 1, 7))
  = Ok (cc ++ [(2%nat, betting.Passive)], [-1; -1; 2]) /\
  ~ (forall fuel vp cards s p,
        betting.actor s = Ok p -> ~ valid_rank (get3 cards p) ->
        exists tr e, dealer.action_loop fuel vp cards s = (tr, Raise e) /\
                     isinstance_ValueError_RuntimeError e = false).
Proof.
  repeat split; try (vm_compute; reflexivity).
  intro H.
  destruct (H 5%nat
              (dealer.validated (dealer.Unwrapped (always (PyInt 0)),
                                 dealer.Unwrapped (always (PyInt 0)),
                                 dealer.Unwrapped (always (PyInt 0))))
              (0, 1, 7)
              [(0%nat, betting.Passive); (1%nat, betting.Passive)] 2%nat)
    as (tr & e & Hloop & _).
  - reflexivity.
  - unfold valid_rank. simpl. lia.
  - vm_compute in Hloop. discriminate.
Qed.

(** C5 (amended): called with a state that is not internal or with a rank
    outside 0..3, the validator's [act] raises [ValueError] without calling the
    agent; that is the error kind of an invalid return, and the dealer's loop,
    reaching a seat whose rank is invalid, treats it as a forfeit: it applies
    the forced action and stops. *)
Theorem precondition_fault_is_a_forfeit v s card :
  betting.is_internal s = false \/ ~ valid_rank card ->
  validator.act v s card = ([], Raise ValueError) /\
  isinstance_ValueError_RuntimeError ValueError = true /\
  forall fuel vp cards p,
    betting.actor s = Ok p -> get3 vp p = v -> get3 cards p = card ->
    dealer.action_loop (S fuel) vp cards s
    = ([], Ok (s ++ [(p, if betting.can_bet s then betting.Passive
                         else betting.Aggressive)])).
Proof.
  intro H.
  assert (Hv : validator.act v s card = ([], Raise ValueError)).
  { unfold validator.act, lift.
    destruct (betting.is_internal s) eqn:Hi; [|reflexivity]. cbn [negb].
    destruct H as [H|H]; [discriminate|].
    destruct ((0 <=? card) && (card <? 4)) eqn:Hc; [|reflexivity].
    exfalso. apply H. unfold valid_rank.
    apply andb_prop in Hc as [H0 H4]. lia. }
  split; [assumption|]. split; [reflexivity|].
  intros fuel vp cards p Hp <- <-.
  rewrite action_loop_S, (internal_not_terminal s (actor_internal _ _ Hp)).
  rewrite Hp, bind_lift_Ok, Hv. cbn [isinstance_ValueError_RuntimeError].
  now rewrite (forced_action_act s p Hp).
Qed.

Lemma precondition_fault_is_a_forfeit_witness :
  validator.act {| validator.agent := TemplateAgent;
                   validator.agent_name := "Player_1" |}
                [(0%nat, betting.Aggressive)] (-1)
  = ([], Raise ValueError) /\
  isinstance_ValueError_RuntimeError ValueError = true /\
  forall fuel vp cards p,
    betting.actor [(0%nat, betting.Aggressive)] = Ok p ->
    get3 vp p = {| validator.agent := TemplateAgent;
                   validator.agent_name := "Player_1" |} ->
    get3 cards p = -1 ->
    dealer.action_loop (S fuel) vp cards [(0%nat, betting.Aggressive)]
    = ([], Ok ([(0%nat, betting.Aggressive)]
               ++ [(p, if betting.can_bet [(0%nat, betting.Aggressive)]
                       then betting.Passive else betting.Aggressive)])).
Proof.
  apply precondition_fault_is_a_forfeit.
  right. unfold valid_rank. lia.
Defined.




(** ** The scores of a match *)

Section MatchScores.

Variable players : nat -> vec3 dealer.player.
Variable shuffled : nat -> vec3 Z.
Variable fuel : nat.

(** The deltas of one hand, added with the button at [first]. *)
Lemma add_deltas_rotation first d0 d1 d2 a b c :
  (first < 3)%nat ->
  tournament.add_deltas true first range3 [d0; d1; d2] [a; b; c]
  = Ok [a + nth ((0 + 3 - first) mod 3) [d0; d1; d2] 0;
        b + nth ((1 + 3 - first) mod 3) [d0; d1; d2] 0;
        c + nth ((2 + 3 - first) mod 3) [d0; d1; d2] 0].
Proof.
  intro H. destruct first as [|[|[|first]]]; [| | | exfalso; lia];
    reflexivity.
Qed.

Lemma play_hand_deltas_length pl cards st d :
  snd (dealer.play_hand fuel pl cards) = Ok (st, d) ->
  exists d0 d1 d2, d = [d0; d1; d2].
Proof.
  intro H. destruct (dealer.play_hand fuel pl cards) as [tr r] eqn:Hp.
  simpl in H. subst r.
  apply play_hand_Ok_inv in Hp as (_ & w & _ & _ & ->).
  unfold dealer.deltas, range3. simpl. eauto.
Qed.

Variable outcome : nat -> betting.state * list Z.

Lemma play_hands_rotation hands :
  forall a b c,
    (forall h, In h hands ->
               snd (dealer.play_hand fuel
                      (tournament.hand_players players true h) (shuffled h))
               = Ok (outcome h)) ->
    exists a' b' c',
      tournament.play_hands players shuffled fuel true hands [a; b; c]
      = Ok [a'; b'; c'] /\
      a' = a + sum (map (fun h => nth (seat_of 0 h) (snd (outcome h)) 0) hands) /\
      b' = b + sum (map (fun h => nth (seat_of 1 h) (snd (outcome h)) 0) hands) /\
      c' = c + sum (map (fun h => nth (seat_of 2 h) (snd (outcome h)) 0) hands) /\
      a' + b' + c' = a + b + c + sum (map (fun h => sum (snd (outcome h))) hands).
Proof.
  induction hands as [|h rest IH]; intros a b c Hout.
  - exists a, b, c. simpl. repeat split; lia.
  - pose proof (Hout h (or_introl eq_refl)) as Hh.
    destruct (outcome h) as [st d] eqn:Ho.
    destruct (play_hand_deltas_length _ _ _ _ Hh) as (d0 & d1 & d2 & ->).
    cbn [tournament.play_hands]. rewrite Hh. cbn [tournament.rbind].
    rewrite add_deltas_rotation by (apply Nat.mod_upper_bound; lia).
    cbn [tournament.rbind].
    destruct (IH (a + nth ((0 + 3 - h mod 3) mod 3) [d0; d1; d2] 0)
                 (b + nth ((1 + 3 - h mod 3) mod 3) [d0; d1; d2] 0)
                 (c + nth ((2 + 3 - h mod 3) mod 3) [d0; d1; d2] 0))
      as (a' & b' & c' & Hplay & Ha & Hb & Hc & Hsum).
    { intros k Hk. apply Hout. now right. }
    exists a', b', c'. split; [assumption|].
    cbn [map sum fold_right]. rewrite Ho. cbn [snd].
    fold (sum (map (fun h => nth (seat_of 0 h) (snd (outcome h)) 0) rest)).
    fold (sum (map (fun h => nth (seat_of 1 h) (snd (outcome h)) 0) rest)).
    fold (sum (map (fun h => nth (seat_of 2 h) (snd (outcome h)) 0) rest)).
    fold (sum (map (fun h => sum (snd (outcome h))) rest)).
    unfold seat_of at 1 3 5.
    repeat split; try lia.
    rewrite Hsum.
    assert (Hm : (h mod 3 < 3)%nat) by (apply Nat.mod_upper_bound; lia).
    destruct (h mod 3)%nat as [|[|[|m]]]; [| | | exfalso; lia]; cbn; lia.
Qed.

End MatchScores.

Lemma sum_map_zero {A} (f : A -> Z) l :
  (forall x, In x l -> f x = 0) -> sum (map f l) = 0.
Proof.
  induction l as [|x l IH]; intro H; [reflexivity|].
  cbn [map]. change (f x + sum (map f l) = 0).
  rewrite IH by (intros y Hy; apply H; now right).
  rewrite (H x) by now left. reflexivity.
Qed.

(** C10: with button rotation, seat [i] of hand [h] is taken by player
    [(h mod 3 + i) mod 3] and that seat's delta goes to that player's score; if
    every hand returns, [play] started from the scores of a new match returns
    three scores, each the sum over the hands of the delta of the seat the
    player sat at, and together the sum over the hands of the hand's three
    deltas, which is zero when every hand is zero-sum. *)
Theorem match_scores_follow_players players shuffled fuel num_hands outcome :
  (forall h, (h < num_hands)%nat ->
             snd (dealer.play_hand fuel
                    (tournament.hand_players players true h) (shuffled h))
             = Ok (outcome h)) ->
  (forall h i, (i < 3)%nat ->
               get3 (tournament.hand_players players true h) i
               = get3 (players h) ((h mod 3 + i) mod 3)%nat) /\
  (forall h p, (p < 3)%nat ->
               (seat_of p h < 3)%nat /\ ((h mod 3 + seat_of p h) mod 3)%nat = p) /\
  exists s0 s1 s2,
    tournament.play players shuffled fuel num_hands tournament.initial_scores true
    = Ok [s0; s1; s2] /\
    s0 = sum (map (fun h => nth (seat_of 0 h) (snd (outcome h)) 0)
                  (seq 0 num_hands)) /\
    s1 = sum (map (fun h => nth (seat_of 1 h) (snd (outcome h)) 0)
                  (seq 0 num_hands)) /\
    s2 = sum (map (fun h => nth (seat_of 2 h) (snd (outcome h)) 0)
                  (seq 0 num_hands)) /\
    s0 + s1 + s2 = sum (map (fun h => sum (snd (outcome h))) (seq 0 num_hands)) /\
    ((forall h, (h < num_hands)%nat -> sum (snd (outcome h)) = 0) ->
     s0 + s1 + s2 = 0).
Proof.
  intro Hout. split; [|split].
  - intros h i Hi. unfold tournament.hand_players.
    assert (Hm : (h mod 3 < 3)%nat) by (apply Nat.mod_upper_bound; lia).
    destruct (h mod 3)%nat as [|[|[|m]]]; [| | | exfalso; lia];
      destruct i as [|[|[|i]]]; try (exfalso; lia); reflexivity.
  - intros h p Hp. unfold seat_of.
    assert (Hm : (h mod 3 < 3)%nat) by (apply Nat.mod_upper_bound; lia).
    destruct (h mod 3)%nat as [|[|[|m]]]; [| | | exfalso; lia];
      destruct p as [|[|[|p]]]; try (exfalso; lia); simpl; split; lia.
  - destruct (play_hands_rotation players shuffled fuel outcome
                                  (seq 0 num_hands) 0 0 0)
      as (s0 & s1 & s2 & Hplay & H0 & H1 & H2 & Hsum).
    { intros h Hh. apply Hout. apply in_seq in Hh. lia. }
    exists s0, s1, s2. unfold tournament.play, tournament.initial_scores.
    repeat split; try assumption; try lia.
    intro Hzero. rewrite Hsum. rewrite sum_map_zero; [reflexivity|].
    intros h Hh. apply Hzero. apply in_seq in Hh. lia.
Qed.

Lemma match_scores_follow_players_witness :
  (forall h i, (i < 3)%nat ->
               get3 (tournament.hand_players demo_players true h) i
               = get3 (demo_players h) ((h mod 3 + i) mod 3)%nat) /\
  (forall h p, (p < 3)%nat ->
               (seat_of p h < 3)%nat /\ ((h mod 3 + seat_of p h) mod 3)%nat = p) /\
  exists s0 s1 s2,
    tournament.play demo_players demo_deal 5 4 tournament.initial_scores true
    = Ok [s0; s1; s2] /\
    s0 = sum (map (fun h => nth (seat_of 0 h) (snd (demo_outcome h)) 0)
                  (seq 0 4)) /\
    s1 = sum (map (fun h => nth (seat_of 1 h) (snd (demo_outcome h)) 0)
                  (seq 0 4)) /\
    s2 = sum (map (fun h => nth (seat_of 2 h) (snd (demo_outcome h)) 0)
                  (seq 0 4)) /\
    s0 + s1 + s2 = sum (map (fun h => sum (snd (demo_outcome h))) (seq 0 4)) /\
    ((forall h, (h < 4)%nat -> sum (snd (demo_outcome h)) = 0) ->
     s0 + s1 + s2 = 0).
Proof.
  apply (match_scores_follow_players demo_players demo_deal 5 4 demo_outcome).
  intros h Hh.
  destruct h as [|[|[|[|h]]]]; [| | | | exfalso; lia]; vm_compute; reflexivity.
Defined.

(** * Further properties of the dealer *)

Section LoopBound.

Variable vp : vec3 validator.AgentValidator.
Variable cards : vec3 Z.

Lemma all_states_depth s :
  In s betting.all_states -> (betting.decision_depth s <= 5)%nat.
Proof.
  intro Hs.
  assert (H : forallb (fun s => (betting.decision_depth s <=? 5)%nat)
                      betting.all_states = true) by (vm_compute; reflexivity).
  apply Nat.leb_le. exact (all_states_ind _ H s Hs).
Qed.

Lemma act_depth s a t :
  betting.act s a = Ok t ->
  betting.decision_depth t = S (betting.decision_depth s).
Proof.
  intro H. destruct (act_inv _ _ _ H) as (p & _ & [[_ ->]|[_ ->]]);
    unfold betting.decision_depth; rewrite length_app; simpl; lia.
Qed.

Lemma validator_act_Ok_step v s card tr a p :
  betting.actor s = Ok p ->
  validator.act v s card = (tr, Ok a) ->
  exists t, betting.act s a = Ok t.
Proof.
  intros Hp Hv. destruct (validator_act_Ok _ _ _ _ _ Hv) as [-> | ->].
  - rewrite (act_passive s p Hp). eauto.
  - rewrite (act_aggressive s p Hp). eauto.
Qed.

(** One more round of fuel changes nothing once there is enough of it. *)
Lemma action_loop_fuel_S fuel :
  forall s, In s betting.all_states ->
            (5 <= fuel + betting.decision_depth s)%nat ->
            dealer.action_loop (S fuel) vp cards s
            = dealer.action_loop fuel vp cards s.
Proof.
  induction fuel as [|fuel IH]; intros s Hs Hfuel;
    (destruct (betting.is_terminal s) eqn:Ht;
     [now rewrite !action_loop_terminal by assumption|]);
    pose proof (all_states_internal_or_terminal s Hs Ht) as Hi;
    pose proof (internal_depth s Hi) as Hd.
  - exfalso. simpl in Hfuel. lia.
  - rewrite (action_loop_S (S fuel)), (action_loop_S fuel), Ht.
    destruct (internal_actor s Hi) as (p & Hp & _).
    rewrite Hp, !bind_lift_Ok.
    destruct (validator.act (get3 vp p) s (get3 cards p)) as [tr [a|e|]] eqn:Hv;
      try reflexivity.
    destruct (validator_act_Ok_step _ _ _ _ _ _ Hp Hv) as (t & Hact).
    rewrite Hact. unfold bind.
    rewrite IH; [reflexivity | eapply all_states_closed; eassumption |].
    rewrite (act_depth _ _ _ Hact). lia.
Qed.

Lemma action_loop_fuel_5 fuel :
  (5 <= fuel)%nat ->
  dealer.action_loop fuel vp cards betting.root
  = dealer.action_loop 5 vp cards betting.root.
Proof.
  induction 1 as [|fuel Hle IH]; [reflexivity|].
  rewrite action_loop_fuel_S; [exact IH | | simpl; lia].
  apply reachable_in_all_states. constructor.
Qed.

Lemma validator_act_trace_length v s card :
  (length (fst (validator.act v s card)) <= 1)%nat.
Proof.
  unfold validator.act, lift.
  repeat match goal with
         | |- context [if ?b then _ else _] => destruct b
         end; simpl; lia.
Qed.

(** The loop asks for at most as many actions as there are levels left. *)
Lemma action_loop_trace_length fuel :
  forall s, In s betting.all_states ->
            (length (fst (dealer.action_loop fuel vp cards s))
             + betting.decision_depth s <= 5)%nat.
Proof.
  induction fuel as [|fuel IH]; intros s Hs;
    pose proof (all_states_depth s Hs) as Hmax;
    (destruct (betting.is_terminal s) eqn:Ht;
     [rewrite action_loop_terminal by assumption; simpl; lia|]).
  - simpl. rewrite Ht. simpl. lia.
  - pose proof (all_states_internal_or_terminal s Hs Ht) as Hi.
    pose proof (internal_depth s Hi) as Hd.
    rewrite action_loop_S, Ht.
    destruct (internal_actor s Hi) as (p & Hp & _).
    rewrite Hp, bind_lift_Ok.
    pose proof (validator_act_trace_length (get3 vp p) s (get3 cards p)) as Hl.
    destruct (validator.act (get3 vp p) s (get3 cards p)) as [tr [a|e|]] eqn:Hv;
      simpl in Hl.
    + destruct (validator_act_Ok_step _ _ _ _ _ _ Hp Hv) as (t & Hact).
      rewrite Hact. unfold bind.
      specialize (IH t (all_states_closed _ _ _ Hs Hact)).
      rewrite (act_depth _ _ _ Hact) in IH.
      destruct (dealer.action_loop fuel vp cards t) as [tr' r]. simpl in *.
      rewrite length_app. lia.
    + destruct (isinstance_ValueError_RuntimeError e); [|simpl; lia].
      rewrite (forced_action_act s p Hp). unfold bind, ret. simpl.
      rewrite length_app. simpl. lia.
    + simpl. lia.
Qed.

End LoopBound.

(** X1: the [while] loop of [play_hand] makes at most five rounds whatever the
    agents do: with room for five rounds the hand never runs out, more room
    changes nothing, and at most five actions are asked for. *)
Theorem play_hand_at_most_five_rounds fuel players cards :
  (5 <= fuel)%nat ->
  dealer.play_hand fuel players cards = dealer.play_hand 5 players cards /\
  snd (dealer.play_hand fuel players cards) <> OutOfFuel /\
  (length (fst (dealer.action_loop fuel (dealer.validated players) cards
                                   betting.root)) <= 5)%nat.
Proof.
  intro Hfuel. split; [|split].
  - unfold dealer.play_hand. now rewrite action_loop_fuel_5.
  - now apply play_hand_terminates.
  - pose proof (action_loop_trace_length (dealer.validated players) cards fuel
                  betting.root) as H.
    simpl in H. rewrite Nat.add_0_r in H. apply H.
    apply reachable_in_all_states. constructor.
Qed.

Lemma play_hand_at_most_five_rounds_witness :
  dealer.play_hand 9
    (dealer.Unwrapped (always (PyInt 0)), dealer.Unwrapped (always (PyInt 0)),
     dealer.Unwrapped (always (PyInt 1))) (2, 0, 1)
  = dealer.play_hand 5
      (dealer.Unwrapped (always (PyInt 0)), dealer.Unwrapped (always (PyInt 0)),
       dealer.Unwrapped (always (PyInt 1))) (2, 0, 1) /\
  snd (dealer.play_hand 9
         (dealer.Unwrapped (always (PyInt 0)),
          dealer.Unwrapped (always (PyInt 0)),
          dealer.Unwrapped (always (PyInt 1))) (2, 0, 1)) <> OutOfFuel /\
  (length (fst (dealer.action_loop 9
                  (dealer.validated
                     (dealer.Unwrapped (always (PyInt 0)),
                      dealer.Unwrapped (always (PyInt 0)),
                      dealer.Unwrapped (always (PyInt 1))))
                  (2, 0, 1)%Z betting.root)) <= 5)%nat.
Proof.
  apply play_hand_at_most_five_rounds. lia.
Defined.

Section OwnCard.

Variable cards : vec3 Z.




End OwnCard.





Section Outcomes.


Lemma bind_Raise {A B} (m : M A) (f : A -> M B) tr e :
  m = (tr, Raise e) -> bind m f = (tr, Raise e).
Proof. now intros ->. Qed.






Variable vp : vec3 validator.AgentValidator.
Variable cards : vec3 Z.



End Outcomes.

Section Completion.










End Completion.





Section Payout.

Lemma pot_contribution_range s p :
  betting.pot_contribution s p = 1 \/ betting.pot_contribution s p = 2.
Proof.
  unfold betting.pot_contribution.
  destruct (_ || _); [right | left]; reflexivity.
Qed.

End Payout.

(** X5: in the payout [play_hand] returns for a valid deal exactly one seat, the
    winner, is paid: it gains what the two others put in, between 2 and 4, and
    each other seat loses its own contribution, 1 or 2. *)
Theorem payout_pays_the_winner_only fuel players cards tr s d :
  valid_deal cards ->
  dealer.play_hand fuel players cards = (tr, Ok (s, d)) ->
  exists w,
    (w < 3)%nat /\ dealer.winner s cards = Ok (Z.of_nat w) /\
    nth w d 0 = betting.pot_size s - betting.pot_contribution s w /\
    2 <= nth w d 0 <= 4 /\
    forall j, (j < 3)%nat -> j <> w ->
              nth j d 0 = - betting.pot_contribution s j /\
              (nth j d 0 = -1 \/ nth j d 0 = -2).
Proof.
  intros Hdeal Hplay.
  apply play_hand_Ok_inv in Hplay as (tr0 & w' & _ & Hwin & ->).
  pose proof (winner_Ok_terminal _ _ _ Hwin) as Ht.
  destruct (winner_correct s cards Ht Hdeal) as (w & Hw & Hwin' & _).
  rewrite Hwin in Hwin'. injection Hwin' as ->.
  exists w. split; [assumption|]. split; [assumption|].
  pose proof (pot_contribution_range s 0%nat) as H0.
  pose proof (pot_contribution_range s 1%nat) as H1.
  pose proof (pot_contribution_range s 2%nat) as H2.
  unfold dealer.deltas, betting.pot_size, range3. cbn [map fold_right].
  remember (betting.pot_contribution s 0%nat) as k0 eqn:E0.
  remember (betting.pot_contribution s 1%nat) as k1 eqn:E1.
  remember (betting.pot_contribution s 2%nat) as k2 eqn:E2.
  destruct w as [|[|[|w]]]; [| | | exfalso; lia]; cbn [nth];
    rewrite <- ?E0, <- ?E1, <- ?E2;
    (split; [cbn; lia|]); (split; [cbn; lia|]);
    intros j Hj Hne; destruct j as [|[|[|j]]]; try (exfalso; lia);
    cbn [nth]; rewrite <- ?E0, <- ?E1, <- ?E2; cbn; lia.
Qed.

Lemma payout_pays_the_winner_only_witness :
  exists w,
    (w < 3)%nat /\
    dealer.winner [(0%nat, betting.Aggressive); (1%nat, betting.Passive);
                   (2%nat, betting.Aggressive)] (1, 2, 3) = Ok (Z.of_nat w) /\
    nth w [-2; 3; -1] 0
    = betting.pot_size [(0%nat, betting.Aggressive); (1%nat, betting.Passive);
                        (2%nat, betting.Aggressive)]
      - betting.pot_contribution
          [(0%nat, betting.Aggressive); (1%nat, betting.Passive);
           (2%nat, betting.Aggressive)] w /\
    2 <= nth w [-2; 3; -1] 0 <= 4 /\
    forall j, (j < 3)%nat -> j <> w ->
              nth j [-2; 3; -1] 0
              = - betting.pot_contribution
                    [(0%nat, betting.Aggressive); (1%nat, betting.Passive);
                     (2%nat, betting.Aggressive)] j /\
              (nth j [-2; 3; -1] 0 = -1 \/ nth j [-2; 3; -1] 0 = -2).
Proof.
  apply (payout_pays_the_winner_only 5
           (dealer.Unwrapped (always (PyInt 1)),
            dealer.Unwrapped (always (PyInt 0)),
            dealer.Unwrapped (always (PyInt 1))) (1, 2, 3)
           (fst (dealer.play_hand 5
                   (dealer.Unwrapped (always (PyInt 1)),
                    dealer.Unwrapped (always (PyInt 0)),
                    dealer.Unwrapped (always (PyInt 1))) (1, 2, 3)))).
  - unfold valid_deal, valid_rank. lia.
  - vm_compute. reflexivity.
Defined.

(** X6: at a showdown where the active seats hold ranks that are not negative,
    even equal ones, [winner] returns an active seat holding the highest of
    them, and among the active seats that hold it the one with the lowest
    number. *)
Theorem winner_breaks_ties_by_seat s cards :
  betting.is_showdown s = true ->
  (forall i, (i < 3)%nat -> betting.at_showdown s i = true ->
             0 <= get3 cards i) ->
  exists w,
    (w < 3)%nat /\ dealer.winner s cards = Ok (Z.of_nat w) /\
    betting.at_showdown s w = true /\
    forall j, (j < 3)%nat -> betting.at_showdown s j = true ->
              get3 cards j <= get3 cards w /\
              (get3 cards j = get3 cards w -> (w <= j)%nat).
Proof.
  intros Hshow Hpos.
  assert (Ht : betting.is_terminal s = true).
  { unfold betting.is_showdown in Hshow. now apply andb_prop in Hshow. }
  pose proof (Hpos 0%nat) as H0. pose proof (Hpos 1%nat) as H1.
  pose proof (Hpos 2%nat) as H2. clear Hpos.
  destruct cards as [[c0 c1] c2].
  unfold dealer.winner. rewrite Ht, Hshow. cbn [negb].
  unfold betting.is_showdown, betting.active_seats in Hshow.
  rewrite Ht in Hshow.
  cbn [filter range3 fold_left get3 snd andb] in *.
  destruct (betting.at_showdown s 0%nat) eqn:A0,
           (betting.at_showdown s 1%nat) eqn:A1,
           (betting.at_showdown s 2%nat) eqn:A2;
    cbn [length Nat.leb andb get3 snd fst] in *; try discriminate;
    repeat match goal with
           | H : ?P -> true = true -> _ |- _ =>
               let H' := fresh in
               assert (H' : P) by lia; specialize (H H' eq_refl); clear H'
           | H : _ -> false = true -> _ |- _ => clear H
           end;
    repeat (match goal with
            | |- context [?a >? ?b] =>
                is_var a; first [is_var b | constr_eq b (-1)];
                destruct (Z.gtb_spec a b); try lia
            end; cbn [snd fst]);
    match goal with
    | |- exists w, _ /\ Ok (Z.of_nat ?k) = _ /\ _ =>
        exists k; split; [lia | split; [reflexivity | split; [assumption|]]]
    end;
    intros j Hj Aj; destruct j as [|[|[|j]]]; try (exfalso; lia);
    cbn [get3]; try congruence; split; lia.
Qed.

Lemma winner_breaks_ties_by_seat_witness :
  exists w,
    (w < 3)%nat /\
    dealer.winner [(0%nat, betting.Passive); (1%nat, betting.Passive);
                   (2%nat, betting.Passive)] (1, 2, 2) = Ok (Z.of_nat w) /\
    betting.at_showdown [(0%nat, betting.Passive); (1%nat, betting.Passive);
                         (2%nat, betting.Passive)] w = true /\
    forall j, (j < 3)%nat ->
              betting.at_showdown
                [(0%nat, betting.Passive); (1%nat, betting.Passive);
                 (2%nat, betting.Passive)] j = true ->
              get3 (1, 2, 2) j <= get3 (1, 2, 2) w /\
              (get3 (1, 2, 2) j = get3 (1, 2, 2) w -> (w <= j)%nat).
Proof.
  apply winner_breaks_ties_by_seat.
  - reflexivity.
  - intros i Hi _. destruct i as [|[|[|i]]]; simpl; lia.
Defined.

(** * Further properties of [Match.play] *)

Section MatchPlay.

Variable players : nat -> vec3 dealer.player.
Variable shuffled : nat -> vec3 Z.
Variable fuel : nat.

Lemma sum_cons x l : sum (x :: l) = x + sum l.
Proof. reflexivity. Qed.

Lemma add_deltas_seats rot first d0 d1 d2 a b c :
  (first < 3)%nat ->
  tournament.add_deltas rot first range3 [d0; d1; d2] [a; b; c]
  = Ok [a + nth (if rot then (0 + 3 - first) mod 3 else 0)%nat [d0; d1; d2] 0;
        b + nth (if rot then (1 + 3 - first) mod 3 else 1)%nat [d0; d1; d2] 0;
        c + nth (if rot then (2 + 3 - first) mod 3 else 2)%nat [d0; d1; d2] 0].
Proof.
  intro H. destruct rot; [now apply add_deltas_rotation | reflexivity].
Qed.

Lemma play_hands_app rot l1 :
  forall l2 scores,
    tournament.play_hands players shuffled fuel rot (l1 ++ l2) scores
    = tournament.rbind
        (tournament.play_hands players shuffled fuel rot l1 scores)
        (tournament.play_hands players shuffled fuel rot l2).
Proof.
  induction l1 as [|h l1 IH]; intros l2 scores; [reflexivity|].
  cbn [app tournament.play_hands].
  destruct (snd (dealer.play_hand fuel (tournament.hand_players players rot h)
                                  (shuffled h))) as [[st d]| |];
    cbn [tournament.rbind]; try reflexivity.
  destruct (tournament.add_deltas rot (h mod 3) range3 d scores);
    cbn [tournament.rbind]; try reflexivity.
  apply IH.
Qed.

Variable outcome : nat -> betting.state * list Z.

Lemma play_hands_scores rot hands :
  forall a b c,
    (forall h, In h hands ->
               snd (dealer.play_hand fuel
                      (tournament.hand_players players rot h) (shuffled h))
               = Ok (outcome h)) ->
    tournament.play_hands players shuffled fuel rot hands [a; b; c]
    = Ok [a + sum (map (fun h => nth (seat_in rot 0 h) (snd (outcome h)) 0) hands);
          b + sum (map (fun h => nth (seat_in rot 1 h) (snd (outcome h)) 0) hands);
          c + sum (map (fun h => nth (seat_in rot 2 h) (snd (outcome h)) 0) hands)].
Proof.
  induction hands as [|h rest IH]; intros a b c Hout.
  - simpl. now rewrite !Z.add_0_r.
  - pose proof (Hout h (or_introl eq_refl)) as Hh.
    destruct (outcome h) as [st d] eqn:Ho.
    destruct (play_hand_deltas_length _ _ _ _ _ Hh) as (d0 & d1 & d2 & ->).
    cbn [tournament.play_hands]. rewrite Hh. cbn [tournament.rbind].
    rewrite add_deltas_seats by (apply Nat.mod_upper_bound; lia).
    cbn [tournament.rbind].
    rewrite IH by (intros k Hk; apply Hout; now right).
    cbn [map]. rewrite Ho. cbn [snd].
    rewrite !sum_cons. unfold seat_in, seat_of.
    destruct rot; rewrite !Z.add_assoc; reflexivity.
Qed.

End MatchPlay.

(** X7: without button rotation the delta of seat [i] goes to [scores[i]]: if
    every hand returns, [play] returns the scores it started from, each
    increased by the sum over the hands of that seat's delta. *)
Theorem match_scores_without_rotation players shuffled fuel num_hands outcome
        a b c :
  (forall h, (h < num_hands)%nat ->
             snd (dealer.play_hand fuel (players h) (shuffled h))
             = Ok (outcome h)) ->
  tournament.play players shuffled fuel num_hands [a; b; c] false
  = Ok [a + sum (map (fun h => nth 0 (snd (outcome h)) 0) (seq 0 num_hands));
        b + sum (map (fun h => nth 1 (snd (outcome h)) 0) (seq 0 num_hands));
        c + sum (map (fun h => nth 2 (snd (outcome h)) 0) (seq 0 num_hands))].
Proof.
  intro Hout. unfold tournament.play.
  apply (play_hands_scores players shuffled fuel outcome false).
  intros h Hh. apply Hout. apply in_seq in Hh. lia.
Qed.

Lemma match_scores_without_rotation_witness :
  tournament.play demo_players demo_deal 5 3 [10; 20; 30] false
  = Ok [10 + sum (map (fun h => nth 0 (snd (demo_outcome_fixed h)) 0) (seq 0 3));
        20 + sum (map (fun h => nth 1 (snd (demo_outcome_fixed h)) 0) (seq 0 3));
        30 + sum (map (fun h => nth 2 (snd (demo_outcome_fixed h)) 0) (seq 0 3))].
Proof.
  apply match_scores_without_rotation.
  intros h Hh.
  destruct h as [|[|[|h]]]; [| | | exfalso; lia]; vm_compute; reflexivity.
Defined.

Section MatchAbort.

Variable players : nat -> vec3 dealer.player.
Variable shuffled : nat -> vec3 Z.
Variable fuel : nat.

Lemma play_hands_shift rot hands :
  forall a b c x y z r,
    tournament.play_hands players shuffled fuel rot hands [a; b; c] = Ok r ->
    exists s0 s1 s2,
      r = [s0; s1; s2] /\
      tournament.play_hands players shuffled fuel rot hands
                            [a + x; b + y; c + z]
      = Ok [s0 + x; s1 + y; s2 + z].
Proof.
  induction hands as [|h rest IH]; intros a b c x y z r.
  - simpl. intros [= <-]. eauto.
  - cbn [tournament.play_hands].
    destruct (snd (dealer.play_hand fuel (tournament.hand_players players rot h)
                                    (shuffled h))) as [[st d]| |] eqn:Hh;
      cbn [tournament.rbind]; try discriminate.
    destruct (play_hand_deltas_length _ _ _ _ _ Hh) as (d0 & d1 & d2 & ->).
    rewrite !add_deltas_seats by (apply Nat.mod_upper_bound; lia).
    cbn [tournament.rbind]. intro Hr.
    destruct (IH _ _ _ x y z r Hr) as (s0 & s1 & s2 & -> & Hplay).
    exists s0, s1, s2. split; [reflexivity|].
    assert (E : forall p q n : Z, p + q + n = p + n + q) by (intros; lia).
    rewrite (E a x), (E b y), (E c z). exact Hplay.
Qed.

End MatchAbort.

(** X8: a hand that raises ends the match: if the hands before hand [k] return
    and hand [k] raises, [play] raises the same error and returns no scores,
    however many hands were to follow. *)
Theorem match_aborts_on_first_failing_hand
        players shuffled fuel num_hands rot k e outcome a b c :
  (k < num_hands)%nat ->
  (forall h, (h < k)%nat ->
             snd (dealer.play_hand fuel (tournament.hand_players players rot h)
                                   (shuffled h))
             = Ok (outcome h)) ->
  snd (dealer.play_hand fuel (tournament.hand_players players rot k)
                        (shuffled k)) = Raise e ->
  tournament.play players shuffled fuel num_hands [a; b; c] rot = Raise e.
Proof.
  intros Hk Hout Hfail. unfold tournament.play.
  replace num_hands with (k + S (num_hands - S k))%nat by lia.
  rewrite seq_app, play_hands_app.
  rewrite (play_hands_scores players shuffled fuel outcome rot)
    by (intros h Hh; apply Hout; apply in_seq in Hh; lia).
  cbn [tournament.rbind seq tournament.play_hands Nat.add].
  now rewrite Hfail.
Qed.

Lemma match_aborts_on_first_failing_hand_witness :
  tournament.play
    (fun h => (dealer.Unwrapped (always (PyInt 0)),
               dealer.Unwrapped (always (PyInt 0)),
               dealer.Unwrapped (always PyNone)))
    (fun _ => (0, 1, 2)) 5 7 [0; 0; 0] true
  = Raise AssertionError.
Proof.
  apply (match_aborts_on_first_failing_hand _ _ 5 7 true 1 AssertionError
           (fun _ => ([(0%nat, betting.Passive); (1%nat, betting.Passive);
                       (2%nat, betting.Passive)], [-1; -1; 2]))).
  - lia.
  - intros h Hh. destruct h as [|h]; [|exfalso; lia]. vm_compute. reflexivity.
  - vm_compute. reflexivity.
Defined.

(** X9: [play] adds to the scores the match already has: started from
    [a, b, c] it returns what it returns from [0, 0, 0], increased by [a], [b]
    and [c]. *)
Theorem match_play_adds_to_scores players shuffled fuel num_hands rot
        a b c s0 s1 s2 :
  tournament.play players shuffled fuel num_hands tournament.initial_scores rot
  = Ok [s0; s1; s2] ->
  tournament.play players shuffled fuel num_hands [a; b; c] rot
  = Ok [s0 + a; s1 + b; s2 + c].
Proof.
  unfold tournament.play, tournament.initial_scores. intro H.
  destruct (play_hands_shift players shuffled fuel rot _ 0 0 0 a b c _ H)
    as (t0 & t1 & t2 & [= -> -> ->] & Hplay).
  exact Hplay.
Qed.

Lemma match_play_adds_to_scores_witness :
  tournament.play demo_players demo_deal 5 4 [7; 8; 9] true
  = Ok [2 + 7; 1 + 8; -3 + 9].
Proof.
  apply match_play_adds_to_scores. vm_compute. reflexivity.
Defined.

(** * [TournamentMatch.run] *)

Section MatchSummary.

Lemma play_returns_three_scores players shuffled fuel hands rot sc :
  tournament.play players shuffled fuel hands tournament.initial_scores rot
  = Ok sc ->
  exists s0 s1 s2, sc = [s0; s1; s2].
Proof.
  unfold tournament.play, tournament.initial_scores. intro H.
  destruct (play_hands_shift players shuffled fuel rot _ 0 0 0 0 0 0 _ H)
    as (s0 & s1 & s2 & -> & _).
  eauto.
Qed.

Lemma summary_spec s0 s1 s2 r :
  TournamentMatch.summary [s0; s1; s2] = Ok r ->
  TournamentMatch.scores r = [s0; s1; s2] /\
  TournamentMatch.result r = [s0; s1; s2] /\
  (TournamentMatch.winner r < 3)%nat /\
  (TournamentMatch.runner_up r < 3)%nat /\
  TournamentMatch.winner r <> TournamentMatch.runner_up r /\
  (forall j, (j < 3)%nat ->
             nth j [s0; s1; s2] 0 <= nth (TournamentMatch.winner r) [s0; s1; s2] 0 /\
             (nth j [s0; s1; s2] 0 = nth (TournamentMatch.winner r) [s0; s1; s2] 0 ->
              (TournamentMatch.winner r <= j)%nat)) /\
  (forall j, (j < 3)%nat -> j <> TournamentMatch.winner r ->
             nth j [s0; s1; s2] 0
             <= nth (TournamentMatch.runner_up r) [s0; s1; s2] 0) /\
  TournamentMatch.total_chips_wagered r = Z.abs s0 + Z.abs s1 + Z.abs s2.
Proof.
  unfold TournamentMatch.summary, tournament.getitem, tournament.rbind, py_max,
    sorted_reverse, range3.
  cbn [nth_error fold_left py_index fold_right insert_reverse nth map].
  repeat match goal with
         | |- context [?a =? ?b] => destruct (Z.eqb_spec a b)
         | |- context [?a >? ?b] => destruct (Z.gtb_spec a b)
         end;
    cbn [nth_error insert_reverse nth]; try lia;
    repeat match goal with
           | |- context [?a >? ?b] => destruct (Z.gtb_spec a b)
           end;
    cbn [nth_error insert_reverse nth]; try lia;
    intros [= <-]; cbn [TournamentMatch.scores TournamentMatch.result
                        TournamentMatch.winner TournamentMatch.runner_up
                        TournamentMatch.total_chips_wagered nth];
    (split; [reflexivity|]); (split; [reflexivity|]);
    (split; [lia|]); (split; [lia|]); (split; [lia|]);
    (split;
     [intros j Hj; destruct j as [|[|[|j]]]; cbn [nth]; try lia; split; lia|]);
    (split;
     [intros j Hj Hne; destruct j as [|[|[|j]]]; cbn [nth]; lia
     |reflexivity]).
Qed.

End MatchSummary.

(** X10: the summary [TournamentMatch.run] returns names as winner the first
    seat holding the highest score and as runner-up a different seat, whose
    score no seat but the winner exceeds; it repeats the scores of the match
    and gives the sum of their absolute values as the chips wagered. *)
Theorem tournament_match_summary players shuffled fuel hands r :
  TournamentMatch.run players shuffled fuel hands = Ok r ->
  exists s0 s1 s2,
    tournament.play players shuffled fuel hands tournament.initial_scores true
    = Ok [s0; s1; s2] /\
    TournamentMatch.scores r = [s0; s1; s2] /\
    TournamentMatch.result r = [s0; s1; s2] /\
    (TournamentMatch.winner r < 3)%nat /\
    (TournamentMatch.runner_up r < 3)%nat /\
    TournamentMatch.winner r <> TournamentMatch.runner_up r /\
    (forall j, (j < 3)%nat ->
               nth j [s0; s1; s2] 0
               <= nth (TournamentMatch.winner r) [s0; s1; s2] 0 /\
               (nth j [s0; s1; s2] 0
                = nth (TournamentMatch.winner r) [s0; s1; s2] 0 ->
                (TournamentMatch.winner r <= j)%nat)) /\
    (forall j, (j < 3)%nat -> j <> TournamentMatch.winner r ->
               nth j [s0; s1; s2] 0
               <= nth (TournamentMatch.runner_up r) [s0; s1; s2] 0) /\
    TournamentMatch.total_chips_wagered r = Z.abs s0 + Z.abs s1 + Z.abs s2.
Proof.
  unfold TournamentMatch.run. intro H.
  destruct (tournament.play players shuffled fuel hands
                            tournament.initial_scores true) as [sc| |] eqn:Hplay;
    try discriminate.
  destruct (play_returns_three_scores _ _ _ _ _ _ Hplay) as (s0 & s1 & s2 & ->).
  cbn [tournament.rbind] in H.
  exists s0, s1, s2. split; [reflexivity|]. now apply summary_spec.
Qed.

Lemma tournament_match_summary_witness :
  exists s0 s1 s2,
    tournament.play demo_players demo_deal 5 4 tournament.initial_scores true
    = Ok [s0; s1; s2] /\
    [2; 1; -3] = [s0; s1; s2] /\
    [2; 1; -3] = [s0; s1; s2] /\
    (0 < 3)%nat /\ (1 < 3)%nat /\ 0%nat <> 1%nat /\
    (forall j, (j < 3)%nat ->
               nth j [s0; s1; s2] 0 <= nth 0 [s0; s1; s2] 0 /\
               (nth j [s0; s1; s2] 0 = nth 0 [s0; s1; s2] 0 -> (0 <= j)%nat)) /\
    (forall j, (j < 3)%nat -> j <> 0%nat ->
               nth j [s0; s1; s2] 0 <= nth 1 [s0; s1; s2] 0) /\
    6 = Z.abs s0 + Z.abs s1 + Z.abs s2.
Proof.
  apply (tournament_match_summary demo_players demo_deal 5 4
           {| TournamentMatch.scores := [2; 1; -3];
              TournamentMatch.winner := 0;
              TournamentMatch.runner_up := 1;
              TournamentMatch.result := [2; 1; -3];
              TournamentMatch.total_chips_wagered := 6 |}).
  vm_compute. reflexivity.
Defined.

(** * The results of a tournament *)

Section Store.

Lemma store_length results : forall idx r,
  length (Tournament.store results idx r) = length results.
Proof.
  induction results as [|x rest IH]; intros [|i] r; simpl; auto.
Qed.

Lemma lookup_Ok results idx r :
  Tournament.lookup results idx = Ok r <-> nth_error results idx = Some r.
Proof.
  unfold Tournament.lookup. destruct (nth_error results idx); split;
    congruence.
Qed.

Lemma store_nth_error results : forall idx r' i,
  (idx < length results)%nat ->
  nth_error (Tournament.store results idx r') i
  = if Nat.eqb i idx then Some r' else nth_error results i.
Proof.
  induction results as [|x rest IH]; intros idx r' i Hidx; simpl in Hidx;
    [lia|].
  destruct idx as [|idx]; destruct i as [|i]; simpl; try reflexivity.
  apply IH. lia.
Qed.

Lemma lookup_bound results idx r :
  Tournament.lookup results idx = Ok r -> (idx < length results)%nat.
Proof.
  intro H. apply lookup_Ok in H. apply nth_error_Some. congruence.
Qed.

Lemma store_lookup results idx r r' :
  Tournament.lookup results idx = Ok r ->
  Tournament.lookup (Tournament.store results idx r') idx = Ok r'.
Proof.
  intro H. apply lookup_Ok.
  rewrite store_nth_error by (eapply lookup_bound; eassumption).
  now rewrite Nat.eqb_refl.
Qed.

Lemma store_store results : forall idx a b,
  Tournament.store (Tournament.store results idx a) idx b
  = Tournament.store results idx b.
Proof.
  induction results as [|x rest IH]; intros [|i] a b; simpl; try reflexivity.
  now rewrite IH.
Qed.

Lemma store_sum (f : Tournament.stats -> Z) results : forall idx r r',
  Tournament.lookup results idx = Ok r ->
  sum (map f (Tournament.store results idx r'))
  = sum (map f results) - f r + f r'.
Proof.
  induction results as [|x rest IH]; intros idx r r' H.
  - apply lookup_Ok in H. destruct idx; discriminate.
  - destruct idx as [|idx].
    + apply lookup_Ok in H. simpl in H. injection H as ->.
      cbn [Tournament.store map]. rewrite !sum_cons. lia.
    + cbn [Tournament.store map]. rewrite !sum_cons.
      rewrite (IH idx r r'); [lia|].
      apply lookup_Ok. apply lookup_Ok in H. exact H.
Qed.

Lemma store_Forall (P : Tournament.stats -> Prop) results : forall idx r',
  Forall P results -> P r' -> Forall P (Tournament.store results idx r').
Proof.
  induction results as [|x rest IH]; intros [|i] r' H Hr'; simpl;
    try constructor; inversion H; subst; auto.
Qed.

Lemma store_names results : forall idx r r',
  Tournament.lookup results idx = Ok r ->
  Tournament.name r' = Tournament.name r ->
  map Tournament.name (Tournament.store results idx r')
  = map Tournament.name results.
Proof.
  induction results as [|x rest IH]; intros idx r r' H Hn.
  - reflexivity.
  - destruct idx as [|idx].
    + apply lookup_Ok in H. simpl in H. injection H as ->.
      simpl. now rewrite Hn.
    + simpl. f_equal. apply (IH idx r r'); [|assumption].
      apply lookup_Ok. apply lookup_Ok in H. exact H.
Qed.

End Store.

Section RecordMatch.

Lemma place_of_sorted_found s0 s1 s2 i0 i1 i2 idx :
  idx = i0 \/ idx = i1 \/ idx = i2 ->
  exists p,
    Tournament.place_of
      (sorted_reverse fst [(s0, i0); (s1, i1); (s2, i2)]) idx = Some p /\
    (p < 3)%nat.
Proof.
  intro H. unfold sorted_reverse.
  cbn [fold_right insert_reverse fst].
  destruct (s2 >? s1); cbn [insert_reverse fst];
    destruct (s2 >? s0); cbn [insert_reverse fst];
    try destruct (s1 >? s0); cbn [insert_reverse fst Tournament.place_of];
    destruct (Nat.eqb_spec i0 idx), (Nat.eqb_spec i1 idx),
             (Nat.eqb_spec i2 idx);
    try (eexists; split; [reflexivity | lia]);
    exfalso; destruct H as [H|[H|H]]; congruence.
Qed.

Lemma place_of_sorted_distinct s0 s1 s2 i0 i1 i2 p :
  i0 <> i1 -> i0 <> i2 -> i1 <> i2 -> (p < 3)%nat ->
  Tournament.place_of
    (sorted_reverse fst [(s0, i0); (s1, i1); (s2, i2)]) (nth p [i0; i1; i2] 0%nat)
  = Some (place_among s0 s1 s2 p).
Proof.
  intros H01 H02 H12 Hp. unfold sorted_reverse, place_among.
  cbn [fold_right insert_reverse fst].
  assert (E01 : Nat.eqb i0 i1 = false) by now apply Nat.eqb_neq.
  assert (E02 : Nat.eqb i0 i2 = false) by now apply Nat.eqb_neq.
  assert (E12 : Nat.eqb i1 i2 = false) by now apply Nat.eqb_neq.
  assert (E10 : Nat.eqb i1 i0 = false) by (apply Nat.eqb_neq; congruence).
  assert (E20 : Nat.eqb i2 i0 = false) by (apply Nat.eqb_neq; congruence).
  assert (E21 : Nat.eqb i2 i1 = false) by (apply Nat.eqb_neq; congruence).
  destruct p as [|[|[|p]]]; [| | | exfalso; lia]; cbn [nth Nat.ltb Nat.leb andb];
    destruct (Z.gtb_spec s2 s1); cbn [insert_reverse fst];
    destruct (Z.gtb_spec s2 s0); cbn [insert_reverse fst];
    try destruct (Z.gtb_spec s1 s0); cbn [insert_reverse fst Tournament.place_of];
    rewrite ?Nat.eqb_refl, ?E01, ?E02, ?E12, ?E10, ?E20, ?E21;
    repeat match goal with
           | |- context [?a >? ?b] => destruct (Z.gtb_spec a b); try lia
           | |- context [?a =? ?b] => destruct (Z.eqb_spec a b); try lia
           end; reflexivity.
Qed.

Lemma record_position_inv idxs scores results position idx res' :
  Tournament.record_position idxs scores results position idx = Ok res' ->
  exists r d pairs,
    Tournament.lookup results idx = Ok r /\
    nth_error scores position = Some d /\
    Tournament.score_pairs scores idxs = Ok pairs /\
    res' = match Tournament.place_of (sorted_reverse fst pairs) idx with
           | Some p => Tournament.store results idx (credit p d r)
           | None =>
               Tournament.store results idx
                 (Tournament.add_match (Tournament.add_score d r))
           end.
Proof.
  unfold Tournament.record_position, tournament.getitem.
  destruct (Tournament.lookup results idx) as [r| |] eqn:Hr;
    cbn [tournament.rbind]; try discriminate.
  destruct (nth_error scores position) as [d|]; cbn [tournament.rbind];
    try discriminate.
  rewrite (store_lookup _ _ _ _ Hr). cbn [tournament.rbind].
  destruct (Tournament.score_pairs scores idxs) as [pairs| |];
    cbn [tournament.rbind]; try discriminate.
  rewrite store_store.
  destruct (Tournament.place_of (sorted_reverse fst pairs) idx) as [p|] eqn:Hpl.
  - rewrite (store_lookup _ _ _ _ Hr). cbn [tournament.rbind].
    rewrite store_store. intros [= <-]. exists r, d, pairs.
    rewrite Hpl. repeat split.
  - intros [= <-]. exists r, d, pairs. rewrite Hpl. repeat split.
Qed.

Lemma score_pairs_inv scores i0 i1 i2 pairs :
  Tournament.score_pairs scores [i0; i1; i2] = Ok pairs ->
  exists s0 s1 s2 tl,
    scores = s0 :: s1 :: s2 :: tl /\ pairs = [(s0, i0); (s1, i1); (s2, i2)].
Proof.
  destruct scores as [|s0 [|s1 [|s2 tl]]]; simpl; try discriminate.
  intros [= <-]. repeat eexists.
Qed.

Lemma record_position_credited i0 i1 i2 scores results position idx res' :
  idx = i0 \/ idx = i1 \/ idx = i2 ->
  Tournament.record_position [i0; i1; i2] scores results position idx = Ok res' ->
  exists s0 s1 s2 tl d,
    scores = s0 :: s1 :: s2 :: tl /\ nth_error scores position = Some d /\
    credited results idx d res'.
Proof.
  intros Hidx H.
  apply record_position_inv in H as (r & d & pairs & Hr & Hd & Hp & ->).
  apply score_pairs_inv in Hp as (s0 & s1 & s2 & tl & -> & ->).
  destruct (place_of_sorted_found s0 s1 s2 i0 i1 i2 idx Hidx) as (p & Hpl & Hp3).
  rewrite Hpl. exists s0, s1, s2, tl, d.
  split; [reflexivity|]. split; [assumption|].
  exists r, p. auto.
Qed.

Lemma record_match_credited i0 i1 i2 results scores res' :
  Tournament.record_match (i0, i1, i2) results scores = Ok res' ->
  exists s0 s1 s2 tl res1 res2,
    scores = s0 :: s1 :: s2 :: tl /\
    credited results i0 s0 res1 /\
    credited res1 i1 s1 res2 /\
    credited res2 i2 s2 res'.
Proof.
  unfold Tournament.record_match.
  destruct (Tournament.record_position [i0; i1; i2] scores results 0 i0)
    as [res1| |] eqn:H0; cbn [tournament.rbind]; try discriminate.
  destruct (Tournament.record_position [i0; i1; i2] scores res1 1 i1)
    as [res2| |] eqn:H1; cbn [tournament.rbind]; try discriminate.
  intro H2.
  apply record_position_credited in H0
    as (s0 & s1 & s2 & tl & d0 & -> & Hd0 & C0); [|auto].
  apply record_position_credited in H1
    as (? & ? & ? & ? & d1 & E1 & Hd1 & C1); [|auto].
  apply record_position_credited in H2
    as (? & ? & ? & ? & d2 & E2 & Hd2 & C2); [|auto].
  simpl in Hd0, Hd1, Hd2.
  injection Hd0 as <-. injection Hd1 as <-. injection Hd2 as <-.
  exists s0, s1, s2, tl, res1, res2. auto.
Qed.

End RecordMatch.

Section Accounting.

Lemma credit_total_score p d r :
  Tournament.total_score (credit p d r) = Tournament.total_score r + d.
Proof. destruct p as [|[|p]]; reflexivity. Qed.

Lemma credit_matches_played p d r :
  Tournament.matches_played (credit p d r) = Tournament.matches_played r + 1.
Proof. destruct p as [|[|p]]; reflexivity. Qed.

Lemma credit_name p d r : Tournament.name (credit p d r) = Tournament.name r.
Proof. destruct p as [|[|p]]; reflexivity. Qed.

Lemma credit_balanced p d r : balanced r -> balanced (credit p d r).
Proof. unfold balanced. destruct p as [|[|p]]; simpl; lia. Qed.

Lemma nth_map_nth_error (f : Tournament.stats -> Z) l i :
  nth i (map f l) 0 = match nth_error l i with Some x => f x | None => 0 end.
Proof.
  revert i. induction l as [|x l IH]; intros [|i]; simpl; auto.
Qed.

Lemma credited_total results idx d res' :
  credited results idx d res' ->
  sum (map Tournament.total_score res')
  = sum (map Tournament.total_score results) + d.
Proof.
  intros (r & p & Hr & _ & ->).
  rewrite (store_sum _ _ _ _ _ Hr), credit_total_score. lia.
Qed.

Lemma credited_played results idx d res' i :
  credited results idx d res' ->
  nth i (map Tournament.matches_played res') 0
  = nth i (map Tournament.matches_played results) 0
    + (if Nat.eqb idx i then 1 else 0).
Proof.
  intros (r & p & Hr & _ & ->).
  rewrite !nth_map_nth_error.
  rewrite store_nth_error by (eapply lookup_bound; eassumption).
  rewrite (Nat.eqb_sym idx i).
  destruct (Nat.eqb_spec i idx) as [->|_].
  - apply lookup_Ok in Hr. rewrite Hr. apply credit_matches_played.
  - lia.
Qed.

Lemma credited_balanced results idx d res' :
  credited results idx d res' ->
  Forall balanced results -> Forall balanced res'.
Proof.
  intros (r & p & Hr & _ & ->) H.
  apply store_Forall; [assumption|].
  apply credit_balanced. rewrite Forall_forall in H. apply H.
  apply lookup_Ok in Hr. eapply nth_error_In. eassumption.
Qed.

Lemma credited_names results idx d res' :
  credited results idx d res' ->
  map Tournament.name res' = map Tournament.name results.
Proof.
  intros (r & p & Hr & _ & ->).
  apply (store_names _ _ r); [assumption | apply credit_name].
Qed.

(** What one match does to the results as a whole. *)
Lemma record_match_accounts k results scores res' :
  Tournament.record_match k results scores = Ok res' ->
  map Tournament.name res' = map Tournament.name results /\
  sum (map Tournament.total_score res')
  = sum (map Tournament.total_score results) + match_total scores /\
  (forall i, nth i (map Tournament.matches_played res') 0
             = nth i (map Tournament.matches_played results) 0
               + occurrences i k) /\
  (Forall balanced results -> Forall balanced res').
Proof.
  destruct k as [[i0 i1] i2]. intro H.
  apply record_match_credited in H
    as (s0 & s1 & s2 & tl & res1 & res2 & -> & C0 & C1 & C2).
  split; [|split; [|split]].
  - rewrite (credited_names _ _ _ _ C2), (credited_names _ _ _ _ C1).
    apply (credited_names _ _ _ _ C0).
  - rewrite (credited_total _ _ _ _ C2), (credited_total _ _ _ _ C1),
      (credited_total _ _ _ _ C0).
    unfold match_total. simpl. lia.
  - intro i.
    rewrite (credited_played _ _ _ _ i C2), (credited_played _ _ _ _ i C1),
      (credited_played _ _ _ _ i C0).
    unfold occurrences. lia.
  - intro Hb. eapply credited_balanced; [eassumption|].
    eapply credited_balanced; [eassumption|].
    eapply credited_balanced; eassumption.
Qed.

Lemma record_matches_accounts k matches :
  forall results res',
    Tournament.record_matches k matches results = Ok res' ->
    map Tournament.name res' = map Tournament.name results /\
    sum (map Tournament.total_score res')
    = sum (map Tournament.total_score results) + sum (map match_total matches) /\
    (forall i, nth i (map Tournament.matches_played res') 0
               = nth i (map Tournament.matches_played results) 0
                 + occurrences i k * Z.of_nat (length matches)) /\
    (Forall balanced results -> Forall balanced res').
Proof.
  induction matches as [|scores rest IH]; intros results res'.
  - simpl. intros [= <-].
    split; [reflexivity|]. split; [lia|]. split; [intro i; lia | auto].
  - cbn [Tournament.record_matches].
    destruct (Tournament.record_match k results scores) as [res1| |] eqn:H1;
      cbn [tournament.rbind]; try discriminate.
    intro H2.
    apply record_match_accounts in H1 as (N1 & T1 & P1 & B1).
    apply IH in H2 as (N2 & T2 & P2 & B2).
    split; [congruence|]. split; [|split].
    + rewrite T2, T1. cbn [map]. rewrite sum_cons. lia.
    + intro i. rewrite P2, P1. cbn [length]. lia.
    + auto.
Qed.

Lemma record_matchups_accounts m :
  forall results res',
    Tournament.record_matchups m results = Ok res' ->
    map Tournament.name res' = map Tournament.name results /\
    sum (map Tournament.total_score res')
    = sum (map Tournament.total_score results) + matchups_total m /\
    (forall i, nth i (map Tournament.matches_played res') 0
               = nth i (map Tournament.matches_played results) 0
                 + matches_with i m) /\
    (Forall balanced results -> Forall balanced res').
Proof.
  induction m as [|[k matches] rest IH]; intros results res'.
  - simpl. intros [= <-]. unfold matchups_total, matches_with. simpl.
    split; [reflexivity|]. split; [lia|]. split; [intro i; lia | auto].
  - cbn [Tournament.record_matchups].
    destruct (Tournament.record_matches k matches results) as [res1| |] eqn:H1;
      cbn [tournament.rbind]; try discriminate.
    intro H2.
    apply record_matches_accounts in H1 as (N1 & T1 & P1 & B1).
    apply IH in H2 as (N2 & T2 & P2 & B2).
    split; [congruence|]. split; [|split].
    + rewrite T2, T1. unfold matchups_total. cbn [map fst snd].
      rewrite sum_cons. lia.
    + intro i. rewrite P2, P1. unfold matches_with. cbn [map fst snd].
      rewrite sum_cons. lia.
    + auto.
Qed.

Lemma new_stats_fresh names :
  map Tournament.name (map Tournament.new_stats names) = names /\
  sum (map Tournament.total_score (map Tournament.new_stats names)) = 0 /\
  (forall i, nth i (map Tournament.matches_played
                        (map Tournament.new_stats names)) 0 = 0) /\
  Forall balanced (map Tournament.new_stats names).
Proof.
  induction names as [|x names (N & T & P & B)]; simpl.
  - repeat split; auto. intros [|i]; reflexivity.
  - repeat split.
    + now rewrite N.
    + cbn [map] in T. unfold sum in *. simpl. exact T.
    + intros [|i]; [reflexivity | apply P].
    + constructor; [reflexivity | assumption].
Qed.

End Accounting.

(** X11: the results [_calculate_results] builds keep the agents' names in
    order, and the total scores of all the agents add up to the scores of all
    the recorded matches; when every match is zero-sum they add up to zero. *)
Theorem calculate_results_conserves_scores names m results :
  Tournament._calculate_results names m = Ok results ->
  map Tournament.name results = names /\
  sum (map Tournament.total_score results) = matchups_total m /\
  ((forall k matches scores,
       In (k, matches) m -> In scores matches -> match_total scores = 0) ->
   sum (map Tournament.total_score results) = 0).
Proof.
  unfold Tournament._calculate_results. intro H.
  apply record_matchups_accounts in H as (N & T & _ & _).
  destruct (new_stats_fresh names) as (N0 & T0 & _ & _).
  split; [congruence|]. split; [lia|].
  intro Hzero. rewrite T, T0. unfold matchups_total.
  rewrite sum_map_zero; [reflexivity|].
  intros [k matches] Hin. cbn [snd].
  apply sum_map_zero. intros scores Hs. eapply Hzero; eassumption.
Qed.

Lemma calculate_results_conserves_scores_witness :
  map Tournament.name
      [{| Tournament.name := "ann"; Tournament.total_score := 4;
          Tournament.matches_played := 2; Tournament.num_first_places := 1;
          Tournament.num_second_places := 1;
          Tournament.num_third_places := 0 |};
       {| Tournament.name := "bob"; Tournament.total_score := -6;
          Tournament.matches_played := 2; Tournament.num_first_places := 0;
          Tournament.num_second_places := 0;
          Tournament.num_third_places := 2 |};
       {| Tournament.name := "cyd"; Tournament.total_score := 2;
          Tournament.matches_played := 2; Tournament.num_first_places := 1;
          Tournament.num_second_places := 1;
          Tournament.num_third_places := 0 |}]
  = ["ann"; "bob"; "cyd"]%string /\
  sum (map Tournament.total_score
           [{| Tournament.name := "ann"; Tournament.total_score := 4;
               Tournament.matches_played := 2; Tournament.num_first_places := 1;
               Tournament.num_second_places := 1;
               Tournament.num_third_places := 0 |};
            {| Tournament.name := "bob"; Tournament.total_score := -6;
               Tournament.matches_played := 2; Tournament.num_first_places := 0;
               Tournament.num_second_places := 0;
               Tournament.num_third_places := 2 |};
            {| Tournament.name := "cyd"; Tournament.total_score := 2;
               Tournament.matches_played := 2; Tournament.num_first_places := 1;
               Tournament.num_second_places := 1;
               Tournament.num_third_places := 0 |}])
  = matchups_total [((0, 1, 2)%nat, [[5; -4; -1]; [-1; -2; 3]])] /\
  ((forall k matches scores,
       In (k, matches) [((0, 1, 2)%nat, [[5; -4; -1]; [-1; -2; 3]])] ->
       In scores matches -> match_total scores = 0) ->
   sum (map Tournament.total_score
            [{| Tournament.name := "ann"; Tournament.total_score := 4;
                Tournament.matches_played := 2; Tournament.num_first_places := 1;
                Tournament.num_second_places := 1;
                Tournament.num_third_places := 0 |};
             {| Tournament.name := "bob"; Tournament.total_score := -6;
                Tournament.matches_played := 2; Tournament.num_first_places := 0;
                Tournament.num_second_places := 0;
                Tournament.num_third_places := 2 |};
             {| Tournament.name := "cyd"; Tournament.total_score := 2;
                Tournament.matches_played := 2; Tournament.num_first_places := 1;
                Tournament.num_second_places := 1;
                Tournament.num_third_places := 0 |}]) = 0).
Proof.
  apply (calculate_results_conserves_scores
           ["ann"; "bob"; "cyd"]%string
           [((0, 1, 2)%nat, [[5; -4; -1]; [-1; -2; 3]])]).
  vm_compute. reflexivity.
Defined.

(** X12: in the results [_calculate_results] builds, the matches played by an
    agent are the recorded matches it has a seat in, and its first, second and
    third places add up to them: every match gives each of its agents exactly
    one place. *)
Theorem calculate_results_counts_matches names m results :
  Tournament._calculate_results names m = Ok results ->
  (forall i, nth i (map Tournament.matches_played results) 0
             = matches_with i m) /\
  Forall balanced results.
Proof.
  unfold Tournament._calculate_results. intro H.
  apply record_matchups_accounts in H as (_ & _ & P & B).
  destruct (new_stats_fresh names) as (_ & _ & P0 & B0).
  split; [|auto]. intro i. rewrite P, P0. lia.
Qed.

Lemma calculate_results_counts_matches_witness :
  (forall i,
      nth i (map Tournament.matches_played
                 [{| Tournament.name := "ann"; Tournament.total_score := 5;
                     Tournament.matches_played := 1;
                     Tournament.num_first_places := 1;
                     Tournament.num_second_places := 0;
                     Tournament.num_third_places := 0 |};
                  {| Tournament.name := "bob"; Tournament.total_score := 0;
                     Tournament.matches_played := 0;
                     Tournament.num_first_places := 0;
                     Tournament.num_second_places := 0;
                     Tournament.num_third_places := 0 |};
                  {| Tournament.name := "cyd"; Tournament.total_score := 5;
                     Tournament.matches_played := 1;
                     Tournament.num_first_places := 0;
                     Tournament.num_second_places := 1;
                     Tournament.num_third_places := 0 |};
                  {| Tournament.name := "dee"; Tournament.total_score := -10;
                     Tournament.matches_played := 1;
                     Tournament.num_first_places := 0;
                     Tournament.num_second_places := 0;
                     Tournament.num_third_places := 1 |}]) 0
      = matches_with i [((0, 2, 3)%nat, [[5; 5; -10]])]) /\
  Forall balanced
         [{| Tournament.name := "ann"; Tournament.total_score := 5;
             Tournament.matches_played := 1;
             Tournament.num_first_places := 1;
             Tournament.num_second_places := 0;
             Tournament.num_third_places := 0 |};
          {| Tournament.name := "bob"; Tournament.total_score := 0;
             Tournament.matches_played := 0;
             Tournament.num_first_places := 0;
             Tournament.num_second_places := 0;
             Tournament.num_third_places := 0 |};
          {| Tournament.name := "cyd"; Tournament.total_score := 5;
             Tournament.matches_played := 1;
             Tournament.num_first_places := 0;
             Tournament.num_second_places := 1;
             Tournament.num_third_places := 0 |};
          {| Tournament.name := "dee"; Tournament.total_score := -10;
             Tournament.matches_played := 1;
             Tournament.num_first_places := 0;
             Tournament.num_second_places := 0;
             Tournament.num_third_places := 1 |}].
Proof.
  apply (calculate_results_counts_matches
           ["ann"; "bob"; "cyd"; "dee"]%string
           [((0, 2, 3)%nat, [[5; 5; -10]])]).
  vm_compute. reflexivity.
Defined.

Section Places.

Lemma record_position_forward i0 i1 i2 s0 s1 s2 tl results position idx r d p :
  Tournament.lookup results idx = Ok r ->
  nth_error (s0 :: s1 :: s2 :: tl) position = Some d ->
  Tournament.place_of (sorted_reverse fst [(s0, i0); (s1, i1); (s2, i2)]) idx
  = Some p ->
  Tournament.record_position [i0; i1; i2] (s0 :: s1 :: s2 :: tl) results
                             position idx
  = Ok (Tournament.store results idx (credit p d r)).
Proof.
  intros Hr Hd Hp. unfold Tournament.record_position, tournament.getitem.
  rewrite Hr, Hd. cbn [tournament.rbind Tournament.score_pairs].
  rewrite (store_lookup _ _ _ _ Hr). cbn [tournament.rbind].
  rewrite store_store, Hp, (store_lookup _ _ _ _ Hr). cbn [tournament.rbind].
  now rewrite store_store.
Qed.

Lemma lookup_store_other results idx r' i r :
  i <> idx -> (idx < length results)%nat ->
  Tournament.lookup results i = Ok r ->
  Tournament.lookup (Tournament.store results idx r') i = Ok r.
Proof.
  intros Hne Hidx Hr. apply lookup_Ok. rewrite store_nth_error by assumption.
  apply Nat.eqb_neq in Hne. rewrite Hne. now apply lookup_Ok.
Qed.

Lemma place_among_permutes s0 s1 s2 :
  (place_among s0 s1 s2 0 < 3)%nat /\ (place_among s0 s1 s2 1 < 3)%nat /\
  (place_among s0 s1 s2 2 < 3)%nat /\
  place_among s0 s1 s2 0 <> place_among s0 s1 s2 1 /\
  place_among s0 s1 s2 0 <> place_among s0 s1 s2 2 /\
  place_among s0 s1 s2 1 <> place_among s0 s1 s2 2.
Proof.
  unfold place_among. cbn [nth Nat.ltb Nat.leb andb].
  repeat match goal with
         | |- context [?a >? ?b] => destruct (Z.gtb_spec a b)
         | |- context [?a =? ?b] => destruct (Z.eqb_spec a b)
         end; cbn; try lia.
Qed.

Lemma place_among_order s0 s1 s2 p q :
  (p < 3)%nat -> (q < 3)%nat ->
  nth p [s0; s1; s2] 0 > nth q [s0; s1; s2] 0 \/
  (nth p [s0; s1; s2] 0 = nth q [s0; s1; s2] 0 /\ (p < q)%nat) ->
  (place_among s0 s1 s2 p < place_among s0 s1 s2 q)%nat.
Proof.
  intros Hp Hq.
  destruct p as [|[|[|p]]]; [| | | exfalso; lia];
    destruct q as [|[|[|q]]]; try (exfalso; lia);
    unfold place_among; cbn [nth Nat.ltb Nat.leb andb]; intro H;
    repeat match goal with
           | |- context [?a >? ?b] => destruct (Z.gtb_spec a b)
           | |- context [?a =? ?b] => destruct (Z.eqb_spec a b)
           end; cbn; lia.
Qed.

End Places.

(** X13: a match between three different agents credits each of them with its
    own score, one more match and one place: the place of a seat is the number
    of seats with a higher score plus the number of earlier seats with the same
    score, so the three places are first, second and third, a higher score is
    placed ahead of a lower one, and equal scores are placed in seat order. *)
Theorem record_match_places i0 i1 i2 results s0 s1 s2 r0 r1 r2 :
  i0 <> i1 -> i0 <> i2 -> i1 <> i2 ->
  Tournament.lookup results i0 = Ok r0 ->
  Tournament.lookup results i1 = Ok r1 ->
  Tournament.lookup results i2 = Ok r2 ->
  Tournament.record_match (i0, i1, i2) results [s0; s1; s2]
  = Ok (Tournament.store
          (Tournament.store
             (Tournament.store results i0
                               (credit (place_among s0 s1 s2 0) s0 r0))
             i1 (credit (place_among s0 s1 s2 1) s1 r1))
          i2 (credit (place_among s0 s1 s2 2) s2 r2)) /\
  ((place_among s0 s1 s2 0 < 3)%nat /\ (place_among s0 s1 s2 1 < 3)%nat /\
   (place_among s0 s1 s2 2 < 3)%nat /\
   place_among s0 s1 s2 0 <> place_among s0 s1 s2 1 /\
   place_among s0 s1 s2 0 <> place_among s0 s1 s2 2 /\
   place_among s0 s1 s2 1 <> place_among s0 s1 s2 2) /\
  (forall p q, (p < 3)%nat -> (q < 3)%nat ->
               nth p [s0; s1; s2] 0 > nth q [s0; s1; s2] 0 \/
               (nth p [s0; s1; s2] 0 = nth q [s0; s1; s2] 0 /\ (p < q)%nat) ->
               (place_among s0 s1 s2 p < place_among s0 s1 s2 q)%nat).
Proof.
  intros H01 H02 H12 L0 L1 L2.
  split; [|split; [apply place_among_permutes | apply place_among_order]].
  pose proof (lookup_bound _ _ _ L0) as B0.
  pose proof (lookup_bound _ _ _ L1) as B1.
  unfold Tournament.record_match.
  rewrite (record_position_forward i0 i1 i2 s0 s1 s2 [] results 0 i0 r0 s0
             (place_among s0 s1 s2 0) L0 eq_refl
             (place_of_sorted_distinct s0 s1 s2 i0 i1 i2 0 H01 H02 H12
                                       ltac:(lia))).
  cbn [tournament.rbind].
  rewrite (record_position_forward i0 i1 i2 s0 s1 s2 [] _ 1 i1 r1 s1
             (place_among s0 s1 s2 1)
             (lookup_store_other _ _ _ _ _ (not_eq_sym H01) B0 L1) eq_refl
             (place_of_sorted_distinct s0 s1 s2 i0 i1 i2 1 H01 H02 H12
                                       ltac:(lia))).
  cbn [tournament.rbind].
  apply (record_position_forward i0 i1 i2 s0 s1 s2 [] _ 2 i2 r2 s2
           (place_among s0 s1 s2 2)).
  - apply lookup_store_other; [congruence | now rewrite store_length |].
    apply lookup_store_other; [congruence | assumption | assumption].
  - reflexivity.
  - exact (place_of_sorted_distinct s0 s1 s2 i0 i1 i2 2 H01 H02 H12
                                    ltac:(lia)).
Qed.

Lemma record_match_places_witness :
  Tournament.record_match (0, 2, 3)%nat demo_results [5; 5; -10]
  = Ok (Tournament.store
          (Tournament.store
             (Tournament.store demo_results 0
                (credit (place_among 5 5 (-10) 0) 5
                        (Tournament.new_stats "ann")))
             2 (credit (place_among 5 5 (-10) 1) 5 (Tournament.new_stats "cyd")))
          3 (credit (place_among 5 5 (-10) 2) (-10)
                    (Tournament.new_stats "dee"))) /\
  ((place_among 5 5 (-10) 0 < 3)%nat /\ (place_among 5 5 (-10) 1 < 3)%nat /\
   (place_among 5 5 (-10) 2 < 3)%nat /\
   place_among 5 5 (-10) 0 <> place_among 5 5 (-10) 1 /\
   place_among 5 5 (-10) 0 <> place_among 5 5 (-10) 2 /\
   place_among 5 5 (-10) 1 <> place_among 5 5 (-10) 2) /\
  (forall p q, (p < 3)%nat -> (q < 3)%nat ->
               nth p [5; 5; -10] 0 > nth q [5; 5; -10] 0 \/
               (nth p [5; 5; -10] 0 = nth q [5; 5; -10] 0 /\ (p < q)%nat) ->
               (place_among 5 5 (-10) p < place_among 5 5 (-10) q)%nat).
Proof.
  apply record_match_places; try discriminate; reflexivity.
Defined.

(** * A round-robin tournament *)

Section Combinations.

Lemma binom_0_r n : binom n 0 = 1%nat.
Proof. now destruct n. Qed.

Lemma binom_1_r n : binom n 1 = n.
Proof.
  induction n as [|n IH]; [reflexivity|].
  cbn [binom]. rewrite IH. destruct n; simpl; lia.
Qed.

Lemma binom_2_r n : (2 * binom n 2 = n * (n - 1))%nat.
Proof.
  induction n as [|n IH]; [reflexivity|].
  cbn [binom]. rewrite binom_1_r.
  replace (S n - 1)%nat with n by lia.
  destruct n as [|n]; [reflexivity|].
  replace (S n - 1)%nat with n in IH by lia. nia.
Qed.

Lemma length_combinations {A} (l : list A) :
  forall k, length (combinations l k) = binom (length l) k.
Proof.
  induction l as [|x r IH]; intros [|k]; try reflexivity.
  cbn [combinations length binom].
  now rewrite length_app, length_map, !IH.
Qed.

Lemma combinations_length {A} (l : list A) :
  forall k c, In c (combinations l k) -> length c = k.
Proof.
  induction l as [|x r IH]; intros [|k] c; simpl.
  - intros [<-|[]]. reflexivity.
  - intros [].
  - intros [<-|[]]. reflexivity.
  - rewrite in_app_iff, in_map_iff. intros [(c' & <- & Hc')|Hc].
    + simpl. f_equal. now apply IH.
    + now apply (IH (S k)).
Qed.

Lemma count_absent x l :
  ~ In x l ->
  forall k, list_sum (map (count_in x) (combinations l k)) = 0%nat.
Proof.
  induction l as [|a r IH]; intros Hx [|k]; try reflexivity.
  cbn [combinations]. rewrite map_app, list_sum_app, map_map.
  rewrite (IH (fun H => Hx (or_intror H)) (S k)), Nat.add_0_r.
  erewrite map_ext.
  - apply (IH (fun H => Hx (or_intror H)) k).
  - intro c. unfold count_in. simpl.
    destruct (Nat.eq_dec a x) as [->|_]; [|reflexivity].
    exfalso. apply Hx. now left.
Qed.

Lemma list_sum_map_S {A} (f : A -> nat) l :
  list_sum (map (fun c => S (f c)) l) = (length l + list_sum (map f l))%nat.
Proof. induction l as [|x l IH]; simpl; lia. Qed.

Lemma count_present x l :
  NoDup l -> In x l ->
  forall k, list_sum (map (count_in x) (combinations l (S k)))
            = binom (length l - 1) k.
Proof.
  induction l as [|a r IH]; intros Hnd Hx k; [contradiction|].
  inversion Hnd as [|? ? Ha Hr]; subst.
  cbn [combinations length]. rewrite map_app, list_sum_app, map_map.
  replace (S (length r) - 1)%nat with (length r) by lia.
  destruct (Nat.eq_dec a x) as [->|Hne].
  - rewrite (count_absent x r Ha (S k)), Nat.add_0_r.
    erewrite map_ext.
    + rewrite list_sum_map_S, (count_absent x r Ha k), Nat.add_0_r.
      apply length_combinations.
    + intro c. unfold count_in. simpl.
      destruct (Nat.eq_dec x x); [reflexivity | congruence].
  - assert (Hxr : In x r) by (destruct Hx; [congruence | assumption]).
    rewrite (IH Hr Hxr k).
    erewrite map_ext.
    2:{ intro c. unfold count_in. simpl.
        destruct (Nat.eq_dec a x); [congruence | reflexivity]. }
    fold (count_in x).
    destruct r as [|b r']; [contradiction|].
    cbn [length]. replace (S (length r') - 1)%nat with (length r') by lia.
    destruct k as [|k].
    + cbn [combinations map list_sum]. rewrite !binom_0_r. reflexivity.
    + rewrite (IH Hr Hxr k).
      cbn [length]. replace (S (length r') - 1)%nat with (length r') by lia.
      reflexivity.
Qed.

Lemma occurrences_count i a b c :
  occurrences i (a, b, c) = Z.of_nat (count_in i [a; b; c]).
Proof.
  unfold occurrences, count_in. simpl.
  destruct (Nat.eqb_spec a i), (Nat.eq_dec a i); try congruence;
    destruct (Nat.eqb_spec b i), (Nat.eq_dec b i); try congruence;
    destruct (Nat.eqb_spec c i), (Nat.eq_dec c i); try congruence;
    reflexivity.
Qed.

Lemma sum_occurrences_triples i cs :
  (forall c, In c cs -> length c = 3%nat) ->
  sum (map (occurrences i)
           (flat_map (fun c => match c with
                               | [a; b; c] => [(a, b, c)]
                               | _ => []
                               end) cs))
  = Z.of_nat (list_sum (map (count_in i) cs)).
Proof.
  induction cs as [|c cs IH]; intro Hlen; [reflexivity|].
  pose proof (Hlen c (or_introl eq_refl)) as Hc.
  destruct c as [|a [|b [|c [|d tl]]]]; try discriminate.
  cbn [flat_map map app]. rewrite sum_cons, occurrences_count.
  rewrite IH by (intros c' Hc'; apply Hlen; now right).
  unfold list_sum. cbn [fold_right]. lia.
Qed.

(** Every agent is in as many matchups as there are pairs of other agents. *)
Lemma matchup_keys_occurrences n i :
  (i < n)%nat ->
  2 * sum (map (occurrences i) (Tournament.matchup_keys n))
  = (Z.of_nat n - 1) * (Z.of_nat n - 2).
Proof.
  intro Hi. unfold Tournament.matchup_keys.
  rewrite sum_occurrences_triples by apply combinations_length.
  rewrite count_present; [|apply seq_NoDup|apply in_seq; lia].
  rewrite length_seq.
  pose proof (binom_2_r (n - 1)) as H. nia.
Qed.

End Combinations.

Section RoundRobin.

Lemma key_eqb_eq a b : Tournament.key_eqb a b = true -> a = b.
Proof.
  destruct a as [[a1 a2] a3], b as [[b1 b2] b3]. simpl. intro H.
  apply andb_prop in H as [H H3]. apply andb_prop in H as [H1 H2].
  apply Nat.eqb_eq in H1, H2, H3. congruence.
Qed.

Lemma sum_app l1 l2 : sum (l1 ++ l2) = sum l1 + sum l2.
Proof.
  induction l1 as [|x l1 IH]; [reflexivity|].
  cbn [app]. rewrite !sum_cons, IH. lia.
Qed.

Lemma dict_append_matches_with i m k scores :
  matches_with i (Tournament.dict_append m k scores)
  = matches_with i m + occurrences i k.
Proof.
  unfold matches_with.
  induction m as [|[k' matches] rest IH]; cbn [Tournament.dict_append].
  - cbn [map fst snd length]. rewrite sum_cons. simpl. lia.
  - destruct (Tournament.key_eqb k' k) eqn:Hk.
    + apply key_eqb_eq in Hk. subst k'.
      cbn [map fst snd]. rewrite !sum_cons, length_app. simpl. lia.
    + cbn [map fst snd]. rewrite !sum_cons, IH. lia.
Qed.

Lemma dict_append_total m k scores :
  matchups_total (Tournament.dict_append m k scores)
  = matchups_total m + match_total scores.
Proof.
  unfold matchups_total.
  induction m as [|[k' matches] rest IH]; cbn [Tournament.dict_append].
  - cbn [map snd]. rewrite !sum_cons. simpl. lia.
  - destruct (Tournament.key_eqb k' k).
    + cbn [map snd]. rewrite !sum_cons, map_app, sum_app. simpl. lia.
    + cbn [map snd]. rewrite !sum_cons, IH. lia.
Qed.

Variable match_players : nat -> nat -> vec3 dealer.player.
Variable match_deals : nat -> nat -> vec3 Z.
Variable fuel : nat.
Variable hands_per_matchup : nat.

Lemma play_round_accounts i keys :
  forall mc m mc' m',
    Tournament.play_round match_players match_deals fuel hands_per_matchup
                          keys mc m = Ok (mc', m') ->
    matches_with i m' = matches_with i m + sum (map (occurrences i) keys) /\
    ((forall c scores,
         Tournament.match_play match_players match_deals fuel
                               hands_per_matchup c = Ok scores ->
         match_total scores = 0) ->
     matchups_total m' = matchups_total m).
Proof.
  induction keys as [|k rest IH]; intros mc m mc' m'.
  - simpl. intros [= <- <-]. split; [simpl; lia | auto].
  - cbn [Tournament.play_round].
    destruct (Tournament.match_play match_players match_deals fuel
                                    hands_per_matchup (S mc))
      as [scores| |] eqn:Hplay; cbn [tournament.rbind]; try discriminate.
    intro H. apply IH in H as (Hw & Ht).
    rewrite dict_append_matches_with in Hw.
    rewrite dict_append_total in Ht.
    split.
    + cbn [map]. rewrite sum_cons. lia.
    + intro Hz. rewrite (Ht Hz), (Hz _ _ Hplay). lia.
Qed.

Lemma play_rounds_accounts i keys num_rounds :
  forall mc m mc' m',
    Tournament.play_rounds match_players match_deals fuel hands_per_matchup
                           num_rounds keys mc m = Ok (mc', m') ->
    matches_with i m'
    = matches_with i m + Z.of_nat num_rounds * sum (map (occurrences i) keys) /\
    ((forall c scores,
         Tournament.match_play match_players match_deals fuel
                               hands_per_matchup c = Ok scores ->
         match_total scores = 0) ->
     matchups_total m' = matchups_total m).
Proof.
  induction num_rounds as [|r IH]; intros mc m mc' m'.
  - simpl. intros [= <- <-]. split; [lia | auto].
  - cbn [Tournament.play_rounds].
    destruct (Tournament.play_round match_players match_deals fuel
                                    hands_per_matchup keys mc m)
      as [[mc1 m1]| |] eqn:H1; cbn [tournament.rbind]; try discriminate.
    intro H2.
    apply play_round_accounts with (i := i) in H1 as (W1 & T1).
    apply IH in H2 as (W2 & T2).
    split.
    + rewrite W2, W1. lia.
    + intro Hz. rewrite (T2 Hz), (T1 Hz). reflexivity.
Qed.

End RoundRobin.

(** X14: a round-robin tournament run on a new [Tournament] of [n] agents is
    even-handed: every agent is recorded with the same number of matches, the
    number of rounds times the number of pairs of other agents, with one place
    for each of them; the names stay in order, and if the scores of every
    match add up to zero, so do the total scores of the tournament. *)
Theorem round_robin_is_even_handed
        match_players match_deals fuel hands_per_matchup names num_rounds
        results m :
  Tournament.run_round_robin match_players match_deals fuel hands_per_matchup
                             names num_rounds [] = Ok (results, m) ->
  map Tournament.name results = names /\
  (forall i, (i < length names)%nat ->
             2 * nth i (map Tournament.matches_played results) 0
             = Z.of_nat num_rounds * (Z.of_nat (length names) - 1)
               * (Z.of_nat (length names) - 2)) /\
  Forall balanced results /\
  ((forall c scores,
       Tournament.match_play match_players match_deals fuel hands_per_matchup c
       = Ok scores ->
       match_total scores = 0) ->
   sum (map Tournament.total_score results) = 0).
Proof.
  unfold Tournament.run_round_robin. intro H.
  destruct (Tournament.play_rounds match_players match_deals fuel
              hands_per_matchup num_rounds
              (Tournament.matchup_keys (length names)) 0 [])
    as [[mc m1]| |] eqn:Hrounds; cbn [tournament.rbind] in H; try discriminate.
  destruct (Tournament._calculate_results names m1) as [res| |] eqn:Hcalc;
    cbn [tournament.rbind] in H; try discriminate.
  injection H as <- <-.
  unfold Tournament._calculate_results in Hcalc.
  apply record_matchups_accounts in Hcalc as (N & T & P & B).
  destruct (new_stats_fresh names) as (N0 & T0 & P0 & B0).
  split; [congruence|]. split; [|split; [auto|]].
  - intros i Hi. rewrite P, P0.
    destruct (play_rounds_accounts match_players match_deals fuel
                hands_per_matchup i _ _ _ _ _ _ Hrounds) as (W & _).
    rewrite W. change (matches_with i []) with 0.
    rewrite <- Z.mul_assoc, <- (matchup_keys_occurrences (length names) i Hi).
    ring.
  - intro Hz.
    destruct (play_rounds_accounts match_players match_deals fuel
                hands_per_matchup 0%nat _ _ _ _ _ _ Hrounds) as (_ & Tz).
    rewrite T, T0, (Tz Hz). reflexivity.
Qed.

Lemma round_robin_is_even_handed_witness :
  map Tournament.name demo_round_robin_results = demo_names /\
  (forall i, (i < length demo_names)%nat ->
             2 * nth i (map Tournament.matches_played demo_round_robin_results) 0
             = Z.of_nat 2 * (Z.of_nat (length demo_names) - 1)
               * (Z.of_nat (length demo_names) - 2)) /\
  Forall balanced demo_round_robin_results /\
  ((forall c scores,
       Tournament.match_play (fun _ => demo_players) (fun _ => demo_deal) 5 4 c
       = Ok scores ->
       match_total scores = 0) ->
   sum (map Tournament.total_score demo_round_robin_results) = 0).
Proof.
  apply (round_robin_is_even_handed (fun _ => demo_players) (fun _ => demo_deal)
           5 4 demo_names 2 demo_round_robin_results
           demo_round_robin_matchups).
  vm_compute. reflexivity.
Defined.

Section RoundRobinAbort.

Variable match_players : nat -> nat -> vec3 dealer.player.
Variable match_deals : nat -> nat -> vec3 Z.
Variable fuel : nat.
Variable hands_per_matchup : nat.

Variable c : nat.
Variable e : exn.
Hypothesis Hbefore :
  forall c', (1 <= c' < c)%nat ->
             exists scores,
               Tournament.match_play match_players match_deals fuel
                                     hands_per_matchup c' = Ok scores.
Hypothesis Hfail :
  Tournament.match_play match_players match_deals fuel hands_per_matchup c
  = Raise e.

Lemma play_round_until_failure keys :
  forall mc m,
    (mc < c)%nat ->
    if (c <=? mc + length keys)%nat
    then Tournament.play_round match_players match_deals fuel
                               hands_per_matchup keys mc m = Raise e
    else exists m',
        Tournament.play_round match_players match_deals fuel
                              hands_per_matchup keys mc m
        = Ok ((mc + length keys)%nat, m').
Proof.
  induction keys as [|k rest IH]; intros mc m Hmc.
  - cbn [length]. destruct (Nat.leb_spec c (mc + 0)); [lia|].
    rewrite Nat.add_0_r. simpl. eauto.
  - cbn [Tournament.play_round length].
    destruct (Nat.eq_dec (S mc) c) as [E|E].
    + rewrite E, Hfail. cbn [tournament.rbind].
      destruct (Nat.leb_spec c (mc + S (length rest))); [reflexivity | lia].
    + destruct (Hbefore (S mc)) as (scores & Hs); [lia|].
      rewrite Hs. cbn [tournament.rbind].
      specialize (IH (S mc) (Tournament.dict_append m k scores)).
      replace (mc + S (length rest))%nat with (S mc + length rest)%nat by lia.
      apply IH. lia.
Qed.

Lemma play_rounds_until_failure keys num_rounds :
  forall mc m,
    (mc < c <= mc + num_rounds * length keys)%nat ->
    Tournament.play_rounds match_players match_deals fuel hands_per_matchup
                           num_rounds keys mc m = Raise e.
Proof.
  induction num_rounds as [|r IH]; intros mc m Hc; [simpl in Hc; lia|].
  cbn [Tournament.play_rounds].
  pose proof (play_round_until_failure keys mc m (proj1 Hc)) as H1.
  destruct (Nat.leb_spec c (mc + length keys)).
  - now rewrite H1.
  - destruct H1 as (m' & ->). cbn [tournament.rbind].
    apply IH. simpl in Hc. lia.
Qed.

End RoundRobinAbort.

(** X15: a match that raises ends the tournament: if the matches before the
    [c]-th return and the [c]-th raises, [run_round_robin] raises the same
    error, and no results are calculated. *)
Theorem round_robin_aborts_on_failing_match
        match_players match_deals fuel hands_per_matchup names num_rounds m c e :
  (1 <= c <= num_rounds
             * length (Tournament.matchup_keys (length names)))%nat ->
  (forall c', (1 <= c' < c)%nat ->
              exists scores,
                Tournament.match_play match_players match_deals fuel
                                      hands_per_matchup c' = Ok scores) ->
  Tournament.match_play match_players match_deals fuel hands_per_matchup c
  = Raise e ->
  Tournament.run_round_robin match_players match_deals fuel hands_per_matchup
                             names num_rounds m = Raise e.
Proof.
  intros Hc Hbefore Hfail. unfold Tournament.run_round_robin.
  rewrite (play_rounds_until_failure match_players match_deals fuel
             hands_per_matchup c e Hbefore Hfail); [reflexivity|].
  lia.
Qed.

Lemma round_robin_aborts_on_failing_match_witness :
  Tournament.run_round_robin
    (fun c _ => (dealer.Unwrapped (always (PyInt 0)),
                 dealer.Unwrapped (always (PyInt 0)),
                 dealer.Unwrapped
                   (if (c =? 3)%nat then crashing ValueError
                    else always (PyInt 0))))
    (fun _ _ => (0, 1, 2)) 5 2 demo_names 1 [] = Raise AssertionError.
Proof.
  apply (round_robin_aborts_on_failing_match _ _ 5 2 demo_names 1 [] 3
                                              AssertionError).
  - vm_compute. lia.
  - intros c' Hc'.
    destruct c' as [|[|[|c']]]; [lia | | | lia]; eexists; vm_compute;
      reflexivity.
  - vm_compute. reflexivity.
Defined.

(** * Validating a list of agents *)

Section ValidateAgents.

Lemma validate_agents_from_Ok l :
  forall acc vs,
    validate_agents_from l acc = Ok vs ->
    exists new, vs = acc ++ new /\ Forall2 validator_of l new.
Proof.
  induction l as [|info rest IH]; intros acc vs.
  - simpl. intros [= <-]. exists []. split; [now rewrite app_nil_r|constructor].
  - cbn [validate_agents_from].
    destruct (info_name info) as [name| |] eqn:Hn; cbn [tournament.rbind];
      try discriminate.
    destruct (info_agent info) as [a|repr] eqn:Ha; cbn [isinstance_Player negb];
      try discriminate.
    cbn [AgentValidator_init tournament.rbind]. intro H.
    apply IH in H as (new & -> & Hnew).
    eexists (_ :: new). split.
    + now rewrite <- app_assoc.
    + constructor; [|assumption]. split; simpl; assumption.
Qed.

Lemma validate_agents_from_complete l :
  forall acc new,
    Forall2 validator_of l new ->
    validate_agents_from l acc = Ok (acc ++ new).
Proof.
  induction l as [|info rest IH]; intros acc new H; inversion H; subst.
  - simpl. now rewrite app_nil_r.
  - match goal with Hv : validator_of info ?v |- _ => destruct Hv as [Ha Hn] end.
    cbn [validate_agents_from]. rewrite Hn, Ha.
    cbn [tournament.rbind isinstance_Player negb AgentValidator_init].
    rewrite IH with (new := l') by assumption.
    rewrite <- app_assoc. simpl. now destruct y.
Qed.

Lemma validate_agents_from_TypeError l :
  forall acc,
    (forall info, In info l -> exists name, info_name info = Ok name) ->
    (exists info, In info l /\ isinstance_Player (info_agent info) = false) ->
    validate_agents_from l acc = Raise TypeError.
Proof.
  induction l as [|info rest IH]; intros acc Hnames (bad & Hin & Hbad).
  - contradiction.
  - cbn [validate_agents_from].
    destruct (Hnames info (or_introl eq_refl)) as (name & ->).
    cbn [tournament.rbind].
    destruct (info_agent info) as [a|repr] eqn:Ha; cbn [isinstance_Player negb];
      [|reflexivity].
    cbn [AgentValidator_init tournament.rbind].
    apply IH.
    + intros i Hi. apply Hnames. now right.
    + destruct Hin as [->|Hin].
      * rewrite Ha in Hbad. discriminate.
      * eauto.
Qed.

End ValidateAgents.

(** X16: [validate_agents] is all or nothing.  It returns validators exactly
    when every element holds a player and has a name, and then one validator
    for each element, in order, wrapping that element's agent under that
    element's name; when every element has a name and some element does not
    hold a player, it raises [TypeError]. *)
Theorem validate_agents_all_or_nothing agents_list :
  (forall vs, validate_agents agents_list = Ok vs <->
              Forall2 validator_of agents_list vs) /\
  ((forall info, In info agents_list -> exists name, info_name info = Ok name) ->
   (exists info, In info agents_list /\
                 isinstance_Player (info_agent info) = false) ->
   validate_agents agents_list = Raise TypeError).
Proof.
  unfold validate_agents. split.
  - intro vs. split.
    + intro H. apply validate_agents_from_Ok in H as (new & -> & Hnew).
      exact Hnew.
    + intro H. now apply (validate_agents_from_complete agents_list [] vs).
  - apply validate_agents_from_TypeError.
Qed.

Lemma validate_agents_all_or_nothing_witness :
  validate_agents
    [NamedAgent "ann" (PlayerObject TemplateAgent);
     BareAgent (OtherObject "<function act>")
               (Returns "<function act>"%string);
     NamedAgent "cyd" (PlayerObject (always (PyInt 0)))]
  = Raise TypeError.
Proof.
  apply (proj2 (validate_agents_all_or_nothing _)).
  - intros info [<-|[<-|[<-|[]]]]; eexists; reflexivity.
  - eexists. split; [right; left; reflexivity | reflexivity].
Defined.

(** * The agent registry *)

Section Dict.

Context {V : Type}.

Lemma get_set_same (d : AgentRegistry.dict V) key v :
  AgentRegistry.get (AgentRegistry.set d key v) key = Some v.
Proof.
  induction d as [|[k w] r IH]; simpl.
  - now rewrite String.eqb_refl.
  - destruct (String.eqb k key) eqn:E; simpl; rewrite E; auto.
Qed.

Lemma get_set_other (d : AgentRegistry.dict V) key v other :
  other <> key ->
  AgentRegistry.get (AgentRegistry.set d key v) other = AgentRegistry.get d other.
Proof.
  intro Hne. induction d as [|[k w] r IH]; simpl.
  - destruct (String.eqb_spec key other); [congruence | reflexivity].
  - destruct (String.eqb_spec k key) as [->|Hk]; simpl.
    + destruct (String.eqb_spec key other); [congruence | reflexivity].
    + destruct (String.eqb k other); [reflexivity | exact IH].
Qed.

Lemma keys_set (d : AgentRegistry.dict V) key v :
  AgentRegistry.keys (AgentRegistry.set d key v)
  = match AgentRegistry.get d key with
    | Some _ => AgentRegistry.keys d
    | None => AgentRegistry.keys d ++ [key]
    end.
Proof.
  unfold AgentRegistry.keys. induction d as [|[k w] r IH]; simpl.
  - reflexivity.
  - destruct (String.eqb k key); simpl; [reflexivity|].
    rewrite IH. now destruct (AgentRegistry.get r key).
Qed.

Lemma get_not_in_keys (d : AgentRegistry.dict V) key :
  ~ In key (AgentRegistry.keys d) -> AgentRegistry.get d key = None.
Proof.
  unfold AgentRegistry.keys. induction d as [|[k w] r IH]; simpl; intro H.
  - reflexivity.
  - destruct (String.eqb_spec k key) as [->|_]; [tauto|].
    apply IH. tauto.
Qed.

(** Keyword arguments win over defaults. *)
Lemma get_merge (kwargs : AgentRegistry.dict V) :
  forall defaults key,
    NoDup (AgentRegistry.keys kwargs) ->
    AgentRegistry.get (AgentRegistry.merge defaults kwargs) key
    = match AgentRegistry.get kwargs key with
      | Some v => Some v
      | None => AgentRegistry.get defaults key
      end.
Proof.
  unfold AgentRegistry.merge.
  induction kwargs as [|[k v] r IH]; intros defaults key Hnd.
  - reflexivity.
  - inversion Hnd as [|? ? Hk Hr]; subst. cbn [fold_left fst snd].
    rewrite (IH _ key Hr). cbn [AgentRegistry.get].
    destruct (String.eqb_spec k key) as [->|Hne].
    + rewrite (get_not_in_keys r key Hk). apply get_set_same.
    + destruct (AgentRegistry.get r key); [reflexivity|].
      apply get_set_other. congruence.
Qed.

End Dict.

(** X17: an agent registered under a name is the one [create] makes for that
    name: [create] calls the registered class with the registered defaults
    overridden by the keyword arguments given, other names are not touched, and
    [list_agents] gains the name at the end unless it was there already. *)
Theorem register_then_create
        (instance : Type) (reg : AgentRegistry.t instance) name cls defaults :
  AgentRegistry.issubclass_Player instance cls = true ->
  exists reg',
    AgentRegistry.register instance reg name cls defaults = Ok reg' /\
    (forall kwargs,
        AgentRegistry.create instance reg' name kwargs
        = match AgentRegistry.construct instance cls
                  (AgentRegistry.merge defaults kwargs) with
          | Returns i => Ok i
          | Raises e => Raise e
          end) /\
    (forall kwargs key,
        NoDup (AgentRegistry.keys kwargs) ->
        AgentRegistry.get (AgentRegistry.merge defaults kwargs) key
        = match AgentRegistry.get kwargs key with
          | Some v => Some v
          | None => AgentRegistry.get defaults key
          end) /\
    (forall other kwargs,
        other <> name ->
        AgentRegistry.create instance reg' other kwargs
        = AgentRegistry.create instance reg other kwargs) /\
    AgentRegistry.list_agents instance reg'
    = (if existsb (String.eqb name) (AgentRegistry.list_agents instance reg)
       then AgentRegistry.list_agents instance reg
       else AgentRegistry.list_agents instance reg ++ [name]).
Proof.
  intro Hcls. unfold AgentRegistry.register. rewrite Hcls. cbn [negb].
  eexists. split; [reflexivity|]. split; [|split; [|split]].
  - intro kwargs. unfold AgentRegistry.create. cbn [AgentRegistry.agents].
    now rewrite get_set_same.
  - intros kwargs key Hnd. now apply get_merge.
  - intros other kwargs Hne. unfold AgentRegistry.create.
    cbn [AgentRegistry.agents]. now rewrite get_set_other.
  - unfold AgentRegistry.list_agents. cbn [AgentRegistry.agents].
    rewrite keys_set.
    destruct (AgentRegistry.get (AgentRegistry.agents instance reg) name)
      as [x|] eqn:Hget.
    + assert (H : existsb (String.eqb name)
                          (AgentRegistry.keys (AgentRegistry.agents instance reg))
                  = true).
      { unfold AgentRegistry.keys.
        induction (AgentRegistry.agents instance reg) as [|[k w] r IH];
          simpl in *; [discriminate|].
        destruct (String.eqb_spec k name) as [->|Hk].
        - now rewrite String.eqb_refl.
        - rewrite (IH Hget). apply orb_true_r. }
      now rewrite H.
    + assert (H : existsb (String.eqb name)
                          (AgentRegistry.keys (AgentRegistry.agents instance reg))
                  = false).
      { unfold AgentRegistry.keys.
        induction (AgentRegistry.agents instance reg) as [|[k w] r IH];
          simpl in *; [reflexivity|].
        destruct (String.eqb_spec k name) as [->|Hk]; [discriminate|].
        rewrite (IH Hget).
        destruct (String.eqb_spec name k); [congruence | reflexivity]. }
      now rewrite H.
Qed.

Lemma register_then_create_witness :
  exists reg',
    AgentRegistry.register pyval (AgentRegistry.empty pyval) "Bluffer"
                           demo_class [("bluff"%string, PyInt 2)] = Ok reg' /\
    AgentRegistry.create pyval reg' "Bluffer" [("bluff"%string, PyInt 5)]
    = Ok (PyInt 5) /\
    AgentRegistry.create pyval reg' "Bluffer" [] = Ok (PyInt 2) /\
    AgentRegistry.list_agents pyval reg' = ["Bluffer"%string].
Proof.
  destruct (register_then_create pyval (AgentRegistry.empty pyval) "Bluffer"
              demo_class [("bluff"%string, PyInt 2)] eq_refl)
    as (reg' & Hreg & Hcreate & _ & _ & Hlist).
  exists reg'. split; [exact Hreg|].
  split; [rewrite Hcreate; reflexivity|].
  split; [rewrite Hcreate; reflexivity | exact Hlist].
Defined.

(** X18: [create_instance] makes an agent once.  After a call that returned an
    instance, every later call for that name returns the same instance and
    leaves the registry as it is, whatever keyword arguments it is given, and
    even after another class has been registered under the name. *)
Theorem create_instance_caches
        (instance : Type) (reg : AgentRegistry.t instance) name kwargs reg1 i :
  AgentRegistry.create_instance instance reg name kwargs = Ok (reg1, i) ->
  AgentRegistry.agents instance reg1 = AgentRegistry.agents instance reg /\
  (forall kwargs',
      AgentRegistry.create_instance instance reg1 name kwargs' = Ok (reg1, i)) /\
  (forall cls defaults reg2 kwargs',
      AgentRegistry.register instance reg1 name cls defaults = Ok reg2 ->
      AgentRegistry.create_instance instance reg2 name kwargs' = Ok (reg2, i)).
Proof.
  unfold AgentRegistry.create_instance. intro H.
  assert (Hreg1 : AgentRegistry.agents instance reg1
                  = AgentRegistry.agents instance reg /\
                  AgentRegistry.get (AgentRegistry.instances instance reg1) name
                  = Some i).
  { destruct (AgentRegistry.get (AgentRegistry.instances instance reg) name)
      as [j|] eqn:Hget.
    - injection H as <- <-. auto.
    - destruct (AgentRegistry.create instance reg name kwargs) as [j| |];
        cbn [tournament.rbind] in H; try discriminate.
      injection H as <- <-. cbn [AgentRegistry.agents AgentRegistry.instances].
      split; [reflexivity | apply get_set_same]. }
  destruct Hreg1 as [Hagents Hcached].
  split; [assumption|]. split.
  - intro kwargs'. now rewrite Hcached.
  - intros cls defaults reg2 kwargs'. unfold AgentRegistry.register.
    destruct (negb (AgentRegistry.issubclass_Player instance cls));
      [discriminate|].
    intros [= <-]. cbn [AgentRegistry.instances]. now rewrite Hcached.
Qed.

Lemma create_instance_caches_witness :
  AgentRegistry.create_instance pyval
    {| AgentRegistry.agents :=
         [("Bluffer"%string, (demo_class, [("bluff"%string, PyInt 2)]))];
       AgentRegistry.instances := [("Bluffer"%string, PyInt 2)] |}
    "Bluffer" [("bluff"%string, PyInt 9)]
  = Ok ({| AgentRegistry.agents :=
             [("Bluffer"%string, (demo_class, [("bluff"%string, PyInt 2)]))];
           AgentRegistry.instances := [("Bluffer"%string, PyInt 2)] |},
        PyInt 2).
Proof.
  apply (create_instance_caches pyval
           {| AgentRegistry.agents :=
                [("Bluffer"%string, (demo_class, [("bluff"%string, PyInt 2)]))];
              AgentRegistry.instances := [] |}
           "Bluffer" []).
  reflexivity.
Defined.

(** * Running a tournament *)

Section SmallTournaments.

Variable match_players : nat -> nat -> vec3 dealer.player.
Variable match_deals : nat -> nat -> vec3 Z.
Variable fuel : nat.
Variable hands_per_matchup : nat.

Lemma play_rounds_no_keys num_rounds :
  forall mc m,
    Tournament.play_rounds match_players match_deals fuel hands_per_matchup
                           num_rounds [] mc m = Ok (mc, m).
Proof.
  induction num_rounds as [|r IH]; intros mc m; [reflexivity|].
  cbn [Tournament.play_rounds Tournament.play_round tournament.rbind].
  apply IH.
Qed.

Lemma matchup_keys_small n : (n < 3)%nat -> Tournament.matchup_keys n = [].
Proof.
  intro H. destruct n as [|[|[|n]]]; [reflexivity.. | lia].
Qed.

End SmallTournaments.

(** X19: a tournament of fewer than three agents plays no match at all:
    [run_round_robin] returns at once, with every agent at zero matches, zero
    score and zero places. *)
Theorem round_robin_needs_three_agents
        match_players match_deals fuel hands_per_matchup names num_rounds :
  (length names < 3)%nat ->
  Tournament.run_round_robin match_players match_deals fuel hands_per_matchup
                             names num_rounds []
  = Ok (map Tournament.new_stats names, []).
Proof.
  intro H. unfold Tournament.run_round_robin.
  rewrite (matchup_keys_small _ H), play_rounds_no_keys.
  reflexivity.
Qed.

Lemma round_robin_needs_three_agents_witness :
  Tournament.run_round_robin (fun _ => demo_players) (fun _ => demo_deal) 5 100
                             ["ann"; "bob"]%string 7 []
  = Ok (map Tournament.new_stats ["ann"; "bob"]%string, []).
Proof.
  apply round_robin_needs_three_agents. simpl. lia.
Defined.

Section Selection.

Context {A : Type}.

Lemma select_agents_prefix (l : list A) num_agents :
  exists rest, l = select_agents l num_agents ++ rest.
Proof.
  unfold select_agents, slice_to.
  destruct num_agents as [k|]; [|exists []; now rewrite app_nil_r].
  destruct (k =? 0); [exists []; now rewrite app_nil_r|].
  destruct (k <? 0); eexists; symmetry; apply firstn_skipn.
Qed.

End Selection.

(** X20: [run_tournament] keeps a prefix of the agents it is given: all of them
    when [num_agents] is [None] or 0, the first [num_agents] of them (all, if
    there are fewer) when it is positive, and all but the last [-num_agents]
    when it is negative; the results it returns are those agents', in order. *)
Theorem run_tournament_keeps_a_prefix
        match_players match_deals fuel names num_agents hands_per_match
        num_rounds results m :
  run_tournament match_players match_deals fuel names num_agents
                 hands_per_match num_rounds = Ok (results, m) ->
  map Tournament.name results = select_agents names num_agents /\
  (exists rest, names = select_agents names num_agents ++ rest) /\
  (num_agents = None \/ num_agents = Some 0 ->
   select_agents names num_agents = names) /\
  (forall k, num_agents = Some k -> 0 < k ->
             length (select_agents names num_agents)
             = Nat.min (Z.to_nat k) (length names)) /\
  (forall k, num_agents = Some k -> k < 0 ->
             length (select_agents names num_agents)
             = (length names - Z.to_nat (- k))%nat).
Proof.
  unfold run_tournament. intro H.
  unfold Tournament.run_round_robin in H.
  destruct (Tournament.play_rounds _ _ _ _ _ _ _ _) as [[mc m1]| |];
    cbn [tournament.rbind] in H; try discriminate.
  destruct (Tournament._calculate_results _ m1) as [res| |] eqn:Hcalc;
    cbn [tournament.rbind] in H; try discriminate.
  injection H as <- <-.
  unfold Tournament._calculate_results in Hcalc.
  apply record_matchups_accounts in Hcalc as (N & _).
  destruct (new_stats_fresh (select_agents names num_agents)) as (N0 & _).
  split; [congruence|]. split; [apply select_agents_prefix|].
  split; [|split].
  - intros [-> | ->]; reflexivity.
  - intros k -> Hk. unfold select_agents, slice_to.
    destruct (Z.eqb_spec k 0); [lia|].
    destruct (Z.ltb_spec k 0); [lia|].
    apply length_firstn.
  - intros k -> Hk. unfold select_agents, slice_to.
    destruct (Z.eqb_spec k 0); [lia|].
    destruct (Z.ltb_spec k 0); [|lia].
    rewrite length_firstn. lia.
Qed.

Lemma run_tournament_keeps_a_prefix_witness :
  map Tournament.name (map Tournament.new_stats ["ann"; "bob"]%string)
  = select_agents demo_names (Some (-2)) /\
  (exists rest, demo_names = select_agents demo_names (Some (-2)) ++ rest) /\
  (Some (-2) = None \/ Some (-2) = Some 0 ->
   select_agents demo_names (Some (-2)) = demo_names) /\
  (forall k, Some (-2) = Some k -> 0 < k ->
             length (select_agents demo_names (Some (-2)))
             = Nat.min (Z.to_nat k) (length demo_names)) /\
  (forall k, Some (-2) = Some k -> k < 0 ->
             length (select_agents demo_names (Some (-2)))
             = (length demo_names - Z.to_nat (- k))%nat).
Proof.
  apply (run_tournament_keeps_a_prefix (fun _ => demo_players)
           (fun _ => demo_deal) 5 demo_names (Some (-2)) 10 3 _ []).
  reflexivity.
Defined.

(** * Rankings *)

Section Rankings.

Context {A : Type}.
Variable key : nat * A -> Z.

Let before (a b : nat * A) : Prop :=
  key a > key b \/ (key a = key b /\ (fst a < fst b)%nat).

Lemma insert_reverse_perm (x : nat * A) l :
  Permutation (insert_reverse key x l) (x :: l).
Proof.
  induction l as [|y r IH]; simpl; [reflexivity|].
  destruct (key y >? key x); [|reflexivity].
  rewrite IH. apply perm_swap.
Qed.

Lemma sorted_reverse_perm (l : list (nat * A)) :
  Permutation (sorted_reverse key l) l.
Proof.
  induction l as [|x r IH]; simpl; [reflexivity|].
  rewrite insert_reverse_perm. now constructor.
Qed.

Lemma insert_reverse_sorted (x : nat * A) l :
  StronglySorted before l ->
  Forall (fun b => (fst x < fst b)%nat) l ->
  StronglySorted before (insert_reverse key x l).
Proof.
  induction l as [|y r IH]; intros Hs Hx; simpl.
  - repeat constructor.
  - inversion Hs as [|? ? Hr Hy]; subst.
    inversion Hx as [|? ? Hxy Hxr]; subst.
    destruct (Z.gtb_spec (key y) (key x)) as [Hgt|Hle].
    + constructor; [now apply IH|].
      rewrite insert_reverse_perm. constructor; [left; lia | assumption].
    + constructor; [assumption|].
      constructor.
      * unfold before. destruct (Z.eq_dec (key x) (key y)); [right | left]; lia.
      * rewrite Forall_forall in *. intros b Hb.
        specialize (Hy b Hb). specialize (Hxr b Hb). unfold before in *.
        destruct (Z.eq_dec (key x) (key b)); [right | left]; lia.
Qed.

Lemma sorted_reverse_sorted (l : list (nat * A)) :
  StronglySorted (fun a b => (fst a < fst b)%nat) l ->
  StronglySorted before (sorted_reverse key l).
Proof.
  induction l as [|x r IH]; intro H; simpl; [constructor|].
  inversion H as [|? ? Hr Hx]; subst.
  apply insert_reverse_sorted; [now apply IH|].
  now rewrite sorted_reverse_perm.
Qed.

Lemma combine_seq_sorted (l : list A) :
  forall a, StronglySorted (fun x y : nat * A => (fst x < fst y)%nat)
                           (combine (seq a (length l)) l).
Proof.
  induction l as [|x r IH]; intro a; simpl; constructor; [apply IH|].
  apply Forall_forall. intros [i y] Hin.
  apply in_combine_l in Hin. apply in_seq in Hin. simpl. lia.
Qed.

End Rankings.

(** X21: the ranking by total score lists every agent of the results once,
    under its name, agents with a higher total score before agents with a lower
    one and agents with the same total score in the order of their indices. *)
Theorem get_rankings_orders_by_score results :
  exists ranked,
    Tournament.get_rankings results
    = map (fun e => (Tournament.name (snd e), snd e)) ranked /\
    Permutation ranked (combine (seq 0 (length results)) results) /\
    StronglySorted ranking_order ranked.
Proof.
  unfold Tournament.get_rankings. eexists. split; [reflexivity|]. split.
  - apply sorted_reverse_perm.
  - apply (sorted_reverse_sorted
             (fun e : nat * Tournament.stats => Tournament.total_score (snd e))).
    apply combine_seq_sorted.
Qed.

(** * The template agent *)

(** A hand in which seat 2 forfeits (its [act] raises at the third check) ends
    at the same terminal state and is paid out like the hand of three agents
    that check, but it is not free of forfeits: the validator does not answer
    the third [act] call with an action. *)
Lemma forfeit_on_third_check_is_seen :
  let players := (dealer.Unwrapped (always (PyInt 0)),
                  dealer.Unwrapped (always (PyInt 0)),
                  dealer.Unwrapped (crashing (OtherException "KeyError"))) in
  let s := [(0%nat, betting.Passive); (1%nat, betting.Passive);
            (2%nat, betting.Passive)] in
  snd (dealer.play_hand 5 players (0, 1, 2)) = Ok (s, [-1; -1; 2]) /\
  length (filter is_act_event (fst (dealer.play_hand 5 players (0, 1, 2))))
  = betting.decision_depth s /\
  forallb (act_answered players (0, 1, 2))
          (fst (dealer.play_hand 5 players (0, 1, 2))) = false.
Proof. repeat split; vm_compute; reflexivity. Qed.

(** A seat with an invalid rank forfeits without any [act] call: the hand has
    fewer [act] calls than actions. *)
Lemma forfeit_without_call_is_seen :
  let players := (dealer.Unwrapped (always (PyInt 0)),
                  dealer.Unwrapped (always (PyInt 0)),
                  dealer.Unwrapped (always (PyInt 0))) in
  let s := [(0%nat, betting.Passive); (1%nat, betting.Passive);
            (2%nat, betting.Passive)] in
  snd (dealer.play_hand 5 players (0, 1, 7)) = Ok (s, [-1; -1; 2]) /\
  length (filter is_act_event (fst (dealer.play_hand 5 players (0, 1, 7))))
  = 2%nat /\
  betting.decision_depth s = 3%nat.
Proof. repeat split; vm_compute; reflexivity. Qed.

(** X22: on every valid deal a hand of three agents of [AGENT_TEMPLATE.py]
    returns, with no forfeit on the way: every action of the final state was
    asked for by an [act] call, and the validator accepted what each [act] call
    returned.  The final state is terminal and the holder of the highest card
    wins 2 while each of the others loses 1. *)
Theorem template_agents_never_forfeit_highest_card_wins fuel cards :
  (5 <= fuel)%nat -> valid_deal cards ->
  exists tr s,
    dealer.play_hand fuel
      (dealer.Unwrapped TemplateAgent, dealer.Unwrapped TemplateAgent,
       dealer.Unwrapped TemplateAgent) cards
    = (tr, Ok (s, highest_card_payout cards)) /\
    betting.is_terminal s = true /\
    no_forfeit (dealer.Unwrapped TemplateAgent, dealer.Unwrapped TemplateAgent,
                dealer.Unwrapped TemplateAgent) cards tr s.
Proof.
  intros Hfuel Hdeal. unfold dealer.play_hand.
  rewrite (action_loop_fuel_5 _ _ fuel Hfuel).
  change (exists tr s,
             dealer.play_hand 5
               (dealer.Unwrapped TemplateAgent,
                dealer.Unwrapped TemplateAgent,
                dealer.Unwrapped TemplateAgent) cards
             = (tr, Ok (s, highest_card_payout cards)) /\
             betting.is_terminal s = true /\
             no_forfeit (dealer.Unwrapped TemplateAgent,
                         dealer.Unwrapped TemplateAgent,
                         dealer.Unwrapped TemplateAgent) cards tr s).
  destruct cards as [[c0 c1] c2].
  destruct Hdeal as (H0 & H1 & H2 & H01 & H02 & H12).
  unfold valid_rank in H0, H1, H2.
  assert (E0 : c0 = 0 \/ c0 = 1 \/ c0 = 2 \/ c0 = 3) by lia.
  assert (E1 : c1 = 0 \/ c1 = 1 \/ c1 = 2 \/ c1 = 3) by lia.
  assert (E2 : c2 = 0 \/ c2 = 1 \/ c2 = 2 \/ c2 = 3) by lia.
  destruct E0 as [->|[->|[->| ->]]], E1 as [->|[->|[->| ->]]],
           E2 as [->|[->|[->| ->]]];
    try (exfalso; lia);
    do 2 eexists; (split; [vm_compute; reflexivity|]);
    (split; [vm_compute; reflexivity|]);
    split; vm_compute; reflexivity.
Qed.

Lemma template_agents_never_forfeit_highest_card_wins_witness :
  exists tr s,
    dealer.play_hand 6
      (dealer.Unwrapped TemplateAgent, dealer.Unwrapped TemplateAgent,
       dealer.Unwrapped TemplateAgent) (2, 0, 3)
    = (tr, Ok (s, highest_card_payout (2, 0, 3))) /\
    betting.is_terminal s = true /\
    no_forfeit (dealer.Unwrapped TemplateAgent, dealer.Unwrapped TemplateAgent,
                dealer.Unwrapped TemplateAgent) (2, 0, 3) tr s.
Proof.
  apply template_agents_never_forfeit_highest_card_wins.
  - lia.
  - unfold valid_deal, valid_rank. lia.
Defined.
